(** * OrbitalAnimation: the physics core of [OrbitalAnimation.cpp]

    A shallow embedding of the simulation core of the program: the
    vector helpers ([length], [normalize]), the diagnostics ([energy]),
    the orbit predictor ([predictOrbit]) and the parts of [main] that
    own the simulation state (starter satellite, time-step clamp, click
    spawn, the backwards physics loop with its trail management, and the
    call of the predictor on [sats[0]]), and of the view that [main]
    zooms and pans.

    The program computes on C++ [float].  Every definition is written
    once, over an interface [Flt] of the scalar operations the program
    uses, and is read in two ways:
    - [Binary32]: IEEE-754 single precision, round to nearest even, on
      top of [SpecFloat]; this is what the program does and it runs by
      evaluation;
    - [Exact]: the real numbers, the reading in which the specification
      states its formulas.  *)

From Stdlib Require Import ZArith List Bool Lia.
From Stdlib Require Import Floats.SpecFloat.
From Stdlib Require Import Reals Lra.
Import ListNotations.

Set Implicit Arguments.

(** ** Scalars *)

(** The scalar operations of the program: [+ - * /], unary minus,
    [std::sqrt], the comparisons [<] and [<=], and literals.
    [fdec m k] is the decimal literal [m * 10^-k] (so [0.2f] is
    [fdec 2 1] and [5000.f] is [fdec 5000 0]). *)
Class Flt (F : Type) : Type := {
  fadd : F -> F -> F;
  fsub : F -> F -> F;
  fmul : F -> F -> F;
  fdiv : F -> F -> F;
  fneg : F -> F;
  fsqrt : F -> F;
  fltb : F -> F -> bool;
  fleb : F -> F -> bool;
  fdec : Z -> nat -> F
}.

Declare Scope flt_scope.
Delimit Scope flt_scope with flt.
Infix "+" := fadd : flt_scope.
Infix "-" := fsub : flt_scope.
Infix "*" := fmul : flt_scope.
Infix "/" := fdiv : flt_scope.
Notation "- x" := (fneg x) : flt_scope.
Infix "<?" := fltb : flt_scope.
Infix "<=?" := fleb : flt_scope.

(** [sf::Color] *)
Record Color : Type := mkColor { cr : N; cg : N; cb : N; ca : N }.

Definition Color_Red : Color := mkColor 255 0 0 255.
Definition Color_Green : Color := mkColor 0 255 0 255.
Definition Color_Yellow : Color := mkColor 255 255 0 255.

(** [int] is 32 bits wide.  [int_wrap] brings an integer back into
    its range, as the machine increment does; in C++ itself a signed
    overflow is undefined. *)
Definition INT_MAX : Z := 2147483647.
Definition INT_MIN : Z := -2147483648.
Definition int_wrap (z : Z) : Z :=
  ((z + 2147483648) mod 4294967296 - 2147483648)%Z.

Section Model.
Context {F : Type} {ops : Flt F}.
Local Open Scope flt_scope.

(** [std::max(a, b)] is [(a < b) ? b : a] and [std::min(a, b)] is
    [(b < a) ? b : a]. *)
Definition fmax (a b : F) : F := if a <? b then b else a.
Definition fmin (a b : F) : F := if b <? a then b else a.

(** *** [sf::Vector2f] *)
Record Vector2f : Type := vec { x : F; y : F }.

Definition vadd (a b : Vector2f) : Vector2f := vec (x a + x b) (y a + y b).
Definition vsub (a b : Vector2f) : Vector2f := vec (x a - x b) (y a - y b).
Definition vneg (a : Vector2f) : Vector2f := vec (- x a) (- y a).
Definition vmul (a : Vector2f) (s : F) : Vector2f := vec (x a * s) (y a * s).
Definition vdiv (a : Vector2f) (s : F) : Vector2f := vec (x a / s) (y a / s).

(** *** Constants (lines 8-20) *)
Definition EARTH_CENTER : Vector2f := vec (fdec 600 0) (fdec 450 0).
Definition G : F := fdec 2 1.
Definition EARTH_MASS : F := fdec 5000 0.
Definition J2_STRENGTH : F := fdec 5 5.
Definition EARTH_RADIUS : F := fdec 90 0.
Definition MIN_DIST : F := fdec 1 3.
Definition MAX_TRAIL : nat := 3000.
Definition MAX_DT : F := fdec 5 2.
Definition ORBIT_SPEED_SCALE : F := fdec 4 0.

(** *** [length], [normalize], [energy] (lines 30-48) *)
Definition length (v : Vector2f) : F := fsqrt (x v * x v + y v * y v).

Definition normalize (v : Vector2f) : Vector2f :=
  let m := length v in
  if m <=? MIN_DIST then vec (fdec 0 0) (fdec 0 0) else vdiv v m.

Definition energy (pos vel : Vector2f) : F :=
  let r := fmax (length pos) MIN_DIST in
  let KE := fdec 5 1 * (x vel * x vel + y vel * y vel) in
  let PE := (- G) * EARTH_MASS / r in
  KE + PE.

(** *** [sf::Vertex], [sf::CircleShape] and [Satellite] (lines 22-28) *)
Record Vertex : Type := vertex { vposition : Vector2f; vcolor : Color }.

Record CircleShape : Type := mkShape {
  radius : F;
  fillColor : Color;
  origin : Vector2f;
  position : Vector2f
}.

Record Satellite : Type := mkSat {
  shape : CircleShape;
  velocity : Vector2f;
  trail : list Vertex;
  alive : bool
}.

Definition setPosition (p : Vector2f) (c : CircleShape) : CircleShape :=
  mkShape (radius c) (fillColor c) (origin c) p.

Definition getPosition (s : Satellite) : Vector2f := position (shape s).

(** [sat.alive = false] *)
Definition mark_dead (s : Satellite) : Satellite :=
  mkSat (shape s) (velocity s) (trail s) false.

(** *** [predictOrbit] (lines 50-81) *)

(** Lines 64-75: the force at [p] and one semi-implicit Euler step. *)
Definition predict_integrate (p v : Vector2f) (dist dt : F)
  : Vector2f * Vector2f :=
  let toEarth := vneg p in
  let dir := normalize toEarth in
  let accel := G * EARTH_MASS / (dist * dist + MIN_DIST) in
  let a := vmul dir accel in
  let tangent := vec (- y dir) (x dir) in
  let a := vadd a (vmul (vmul tangent J2_STRENGTH) dist) in
  let v := vadd v (vmul a dt) in
  let p := vadd p (vmul v dt) in
  (p, v).

Definition ghost_color : Color := mkColor 200 200 255 120.

(** The [for] loop of lines 58-78 with [n] iterations left. *)
Fixpoint predict_loop (n : nat) (p v : Vector2f) (dt : F)
         (ghost : list Vertex) : list Vertex :=
  match n with
  | O => ghost
  | S n' =>
      let toEarth := vneg p in
      let dist := length toEarth in
      if dist <=? EARTH_RADIUS then ghost
      else
        let '(p', v') := predict_integrate p v dist dt in
        predict_loop n' p' v' dt (ghost ++ [vertex p' ghost_color])
  end.

(** [steps] is an [int]; [ghost.reserve(steps)] converts it to
    [size_t], and a negative count exceeds [max_size()]: the call
    throws [std::length_error], rendered as [None]. *)
Definition predictOrbit (pos vel : Vector2f) (dt : F) (steps : Z)
  : option (list Vertex) :=
  if (steps <? 0)%Z then None
  else Some (predict_loop (Z.to_nat steps) pos vel dt []).

(** *** The state [main] owns *)

(** [sats], [energyCounter], and what has been written to
    [std::cout] (the energies, oldest first).  The counter is an
    [int]: an integer between [INT_MIN] and [INT_MAX], which [++]
    wraps around. *)
Record World : Type := mkWorld {
  sats : list Satellite;
  energyCounter : Z;
  cout : list F
}.

Definition with_sats (l : list Satellite) (w : World) : World :=
  mkWorld l (energyCounter w) (cout w).

(** The starter satellite (lines 100-111). *)
Definition starter : Satellite :=
  mkSat (mkShape (fdec 6 0) Color_Red
                 (vec (fdec 6 0) (fdec 6 0))
                 (vec (fdec 350 0) (fdec 0 0)))
        (vec (fdec 0 0)
             (fsqrt (G * EARTH_MASS / fdec 350 0) * ORBIT_SPEED_SCALE))
        []
        true.

Definition initial : World := mkWorld [starter] 0 [].

(** The time step (lines 119-121). *)
Definition clamp_dt (dt : F) : F :=
  let dt := if dt <=? fdec 0 0 then fdec 1 0 / fdec 60 0 else dt in
  fmin dt MAX_DT.

(** A left click at [worldPos] (lines 144-172). *)
Definition spawn (worldPos : Vector2f) (w : World) : World :=
  let r := length (vsub worldPos EARTH_CENTER) in
  if (EARTH_RADIUS + fdec 5 0) <? r then
    let dir := normalize (vsub worldPos EARTH_CENTER) in
    let tangent := vec (- y dir) (x dir) in
    let v := fsqrt (G * EARTH_MASS / fmax r MIN_DIST) * ORBIT_SPEED_SCALE in
    let ns := mkSat (mkShape (fdec 5 0) Color_Yellow
                             (vec (fdec 5 0) (fdec 5 0)) worldPos)
                    (vmul tangent v) [] true in
    with_sats (sats w ++ [ns]) w
  else w.

(** The events the simulation state depends on: a left click, already
    mapped to world coordinates; everything else only moves the view. *)
Inductive Event : Type :=
| LeftClick (worldPos : Vector2f)
| OtherEvent.

Definition handle_event (w : World) (e : Event) : World :=
  match e with
  | LeftClick worldPos => spawn worldPos w
  | OtherEvent => w
  end.

(** *** The physics update (lines 185-234) *)

(** [sats.erase(sats.begin() + i)] and [sats[i] = s]. *)
Definition erase_at (i : nat) (l : list Satellite) : list Satellite :=
  firstn i l ++ skipn (S i) l.

Fixpoint assign_at (i : nat) (s : Satellite) (l : list Satellite)
  : list Satellite :=
  match l, i with
  | [], _ => []
  | _ :: l', O => s :: l'
  | a :: l', S i' => a :: assign_at i' s l'
  end.

(** Lines 203-214: the force at [pos] and one semi-implicit Euler
    step. *)
Definition live_integrate (pos vel : Vector2f) (dist dt : F)
  : Vector2f * Vector2f :=
  let toEarth := vsub EARTH_CENTER pos in
  let dir := normalize toEarth in
  let accel := G * EARTH_MASS / (dist * dist + MIN_DIST) in
  let a := vmul dir accel in
  let tangent := vec (- y dir) (x dir) in
  let a := vadd a (vmul (vmul tangent J2_STRENGTH) dist) in
  let vel := vadd vel (vmul a dt) in
  let pos := vadd pos (vmul vel dt) in
  (pos, vel).

(** Lines 219-226: append to the trail, then drop the oldest block. *)
Definition trail_append (t : list Vertex) (pos : Vector2f) : list Vertex :=
  let t := t ++ [vertex pos Color_Green] in
  if (MAX_TRAIL <? List.length t)%nat then
    let removeCount := (List.length t - MAX_TRAIL)%nat in
    let removeCount := if (removeCount <? 16)%nat then 16%nat
                       else removeCount in
    skipn removeCount t
  else t.

(** One iteration of the loop of line 186, at index [i]. *)
Definition physics_body (dt : F) (i : nat) (w : World) : World :=
  match nth_error (sats w) i with
  | None => w
  | Some sat =>
      if negb (alive sat) then with_sats (erase_at i (sats w)) w
      else
        let pos := getPosition sat in
        let toEarth := vsub EARTH_CENTER pos in
        let dist := length toEarth in
        if dist <=? EARTH_RADIUS then
          with_sats (assign_at i (mark_dead sat) (sats w)) w
        else
          let '(pos', vel') := live_integrate pos (velocity sat) dist dt in
          let sat' := mkSat (setPosition pos' (shape sat)) vel'
                            (trail_append (trail sat) pos') true in
          let counter := int_wrap (energyCounter w + 1) in
          let out := if (Z.rem counter 200 =? 0)%Z
                     then cout w ++ [energy pos' vel'] else cout w in
          mkWorld (assign_at i sat' (sats w)) counter out
  end.

(** The loop runs [i] from [n - 1] down to [0]. *)
Fixpoint physics_loop (dt : F) (n : nat) (w : World) : World :=
  match n with
  | O => w
  | S i => physics_loop dt i (physics_body dt i w)
  end.

Definition physics_update (dt : F) (w : World) : World :=
  physics_loop dt (List.length (sats w)) w.

(** *** The predicted path of the frame (lines 242-247) *)
Definition predict_dt : F := fdec 2 2.
Definition predict_steps : Z := 400.

Definition predictedPath (w : World) : option (list Vertex) :=
  match sats w with
  | [] => Some []
  | s0 :: _ => predictOrbit (getPosition s0) (velocity s0)
                            predict_dt predict_steps
  end.

(** One turn of the main loop: the clock, the events, the physics
    update, then the predicted path handed to the renderer. *)
Definition frame (dt_raw : F) (events : list Event) (w : World)
  : World * option (list Vertex) :=
  let dt := clamp_dt dt_raw in
  let w := fold_left handle_event events w in
  let w := physics_update dt w in
  (w, predictedPath w).

End Model.

Arguments Vector2f F : clear implicits.
Arguments Vertex F : clear implicits.
Arguments CircleShape F : clear implicits.
Arguments Satellite F : clear implicits.
Arguments World F : clear implicits.
Arguments Event F : clear implicits.

(** ** The two readings of [float] *)

(** IEEE-754 binary32: 24 bits of precision, exponents below 128. *)
Module Binary32.
Definition prec : Z := 24.
Definition emax : Z := 128.
Definition float : Type := spec_float.

Definition of_Z (n : Z) : float := binary_normalize prec emax n 0 false.

(** A decimal literal is the correctly rounded quotient of its digits
    by the power of ten; both are exact in binary32 for the literals of
    the program (below [2^24]). *)
Definition dec (m : Z) (k : nat) : float :=
  match k with
  | O => of_Z m
  | _ => SFdiv prec emax (of_Z m) (of_Z (10 ^ Z.of_nat k))
  end.

#[export] Instance ops : Flt float := {|
  fadd := SFadd prec emax;
  fsub := SFsub prec emax;
  fmul := SFmul prec emax;
  fdiv := SFdiv prec emax;
  fneg := SFopp;
  fsqrt := SFsqrt prec emax;
  fltb := SFltb;
  fleb := SFleb;
  fdec := dec
|}.
End Binary32.

(** The real numbers. *)
Module Exact.
Definition Rltb (a b : R) : bool := if Rlt_dec a b then true else false.
Definition Rleb (a b : R) : bool := if Rle_dec a b then true else false.
Definition dec (m : Z) (k : nat) : R := (IZR m / 10 ^ k)%R.

#[export] Instance ops : Flt R := {|
  fadd := Rplus;
  fsub := Rminus;
  fmul := Rmult;
  fdiv := Rdiv;
  fneg := Ropp;
  fsqrt := sqrt;
  fltb := Rltb;
  fleb := Rleb;
  fdec := dec
|}.
End Exact.

(** ** Derived notions used to state the properties *)

Section Derived.
Context {F : Type} {ops : Flt F}.
Local Open Scope flt_scope.

(** The collision test of the physics loop (lines 192-196) and the one
    of the predictor (lines 60-62), as predicates. *)
Definition collides (s : Satellite F) : bool :=
  length (vsub EARTH_CENTER (getPosition s)) <=? EARTH_RADIUS.

Definition predict_collides (p : Vector2f F) : bool :=
  length (vneg p) <=? EARTH_RADIUS.

(** The two integration steps as functions of position, velocity and
    time step. *)
Definition live_step (pos vel : Vector2f F) (dt : F)
  : Vector2f F * Vector2f F :=
  live_integrate pos vel (length (vsub EARTH_CENTER pos)) dt.

Definition predict_step (p v : Vector2f F) (dt : F)
  : Vector2f F * Vector2f F :=
  predict_integrate p v (length (vneg p)) dt.

(** What one pass of the physics loop makes of a live satellite that
    does not collide. *)
Definition moved (dt : F) (s : Satellite F) : Satellite F :=
  let '(pos', vel') := live_step (getPosition s) (velocity s) dt in
  mkSat (setPosition pos' (shape s)) vel'
        (trail_append (trail s) pos') true.

(** What one pass of the physics loop makes of one satellite: nothing
    (erased), the satellite flagged, or the satellite moved. *)
Definition sat_tick (dt : F) (s : Satellite F) : list (Satellite F) :=
  if negb (alive s) then []
  else if collides s then [mark_dead s]
  else [moved dt s].

(** The predictor's state after [k] integration steps. *)
Fixpoint predict_state (k : nat) (p v : Vector2f F) (dt : F)
  : Vector2f F * Vector2f F :=
  match k with
  | O => (p, v)
  | S k' => let '(p', v') := predict_state k' p v dt in
            predict_step p' v' dt
  end.

(** The [k]-th predicted point. *)
Definition predict_point (p v : Vector2f F) (dt : F) (k : nat) : Vertex F :=
  vertex (fst (predict_state (S k) p v dt)) ghost_color.

(** The energy as the specification words it: the distance is taken
    to the central body. *)
Definition energy_spec (pos vel : Vector2f F) : F :=
  let r := length (vsub pos EARTH_CENTER) in
  fdec 5 1 * (x vel * x vel + y vel * y vel)
  - G * EARTH_MASS / fmax r MIN_DIST.

Definition dot (a b : Vector2f F) : F := x a * x b + y a * y b.
End Derived.

(** ** The view: zoom and pan (lines 88-89, 129-141, 175-183) *)

Section ViewModel.
Context {F : Type} {ops : Flt F}.
Local Open Scope flt_scope.

(** [sf::View], as far as [main] uses it: a centre and a size.
    [zoom] multiplies the size by the factor and [move] adds the offset
    to the centre. *)
Record View : Type := mkView { center : Vector2f F; size : Vector2f F }.

Definition view_zoom (factor : F) (v : View) : View :=
  mkView (center v) (vmul (size v) factor).

Definition view_move (offset : Vector2f F) (v : View) : View :=
  mkView (vadd (center v) offset) (size v).

(** The default view of the 1200 x 900 window, centred at (600, 450)
    (lines 85-89). *)
Definition initial_view : View :=
  mkView (vec (fdec 600 0) (fdec 450 0)) (vec (fdec 1200 0) (fdec 900 0)).

(** [std::clamp(v, lo, hi)]: [lo] when [v < lo], [hi] when [hi < v],
    else [v]; with [lo <= hi] the order of the two tests does not
    matter. *)
Definition fclamp (v lo hi : F) : F :=
  if v <? lo then lo else if hi <? v then hi else v.

(** A mouse wheel event with scroll amount [delta] (lines 129-141). *)
Definition wheel (delta : F) (v : View) : View :=
  let v := if fdec 0 0 <? delta then view_zoom (fdec 9 1) v
           else view_zoom (fdec 11 1) v in
  let minSize := fdec 50 0 in
  let maxSize := fdec 5000 0 in
  let sz := size v in
  let sx := fclamp (x sz) minSize maxSize in
  let sy := fclamp (y sz) (minSize * fdec 75 2) (maxSize * fdec 75 2) in
  mkView (center v) (vec sx sy).

(** The camera pan of a frame, from the state of the keys A, D, W, S
    (lines 175-183). *)
Definition pan (keyA keyD keyW keyS : bool) (v : View) : View :=
  let camBase := fdec 8 0 in
  let viewSize := size v in
  let zoomScale := x viewSize / fdec 1200 0 in
  let cam := camBase * zoomScale in
  let v := if keyA then view_move (vec (- cam) (fdec 0 0)) v else v in
  let v := if keyD then view_move (vec cam (fdec 0 0)) v else v in
  let v := if keyW then view_move (vec (fdec 0 0) (- cam)) v else v in
  let v := if keyS then view_move (vec (fdec 0 0) cam) v else v in
  v.

(** The view after the wheel events of a frame and its pan. *)
Definition view_frame (wheels : list F) (keyA keyD keyW keyS : bool)
           (v : View) : View :=
  pan keyA keyD keyW keyS (fold_left (fun v d => wheel d v) wheels v).
End ViewModel.

Arguments View F : clear implicits.

(** ** Runs of the main loop, and notions to state their invariants *)

Section Runs.
Context {F : Type} {ops : Flt F}.
Local Open Scope flt_scope.

(** The world after a run of frames, each with its clock reading and
    its events. *)
Definition run (inputs : list (F * list (Event F))) (w : World F)
  : World F :=
  fold_left (fun w i => fst (frame (fst i) (snd i) w)) inputs w.

(** The satellites a pass of the physics loop integrates. *)
Definition integrated (s : Satellite F) : bool :=
  alive s && negb (collides s).

(** The live integrator, iterated [k] times with the same step. *)
Fixpoint live_state (k : nat) (pos vel : Vector2f F) (dt : F)
  : Vector2f F * Vector2f F :=
  match k with
  | O => (pos, vel)
  | S k' => let '(p', v') := live_state k' pos vel dt in
            live_step p' v' dt
  end.

(** The number of integrations a run performs: for each frame, the
    satellites its physics pass integrates, counted after the events of
    the frame. *)
Fixpoint run_integrations (inputs : list (F * list (Event F)))
         (w : World F) : Z :=
  match inputs with
  | [] => 0%Z
  | i :: rest =>
      (Z.of_nat (List.length
                   (filter integrated
                           (sats (fold_left handle_event (snd i) w))))
       + run_integrations rest (fst (frame (fst i) (snd i) w)))%Z
  end.

Definition trail_bounded (s : Satellite F) : Prop :=
  (List.length (trail s) <= MAX_TRAIL)%nat.

(** The trail is empty or ends at the satellite's position. *)
Definition trail_at_position (s : Satellite F) : Prop :=
  trail s = []
  \/ exists older, trail s = older ++ [vertex (getPosition s) Color_Green].
End Runs.

(** ** Concrete inputs *)

Module Inputs.
Import Exact Binary32.

Definition v32 (a b : Z) : Vector2f float := vec (of_Z a) (of_Z b).
Definition vR (a b : R) : Vector2f R := vec a b.

(** A satellite as a click creates it, at a given position and with a
    given velocity. *)
Definition sat_at {F} `{Flt F} (p v : Vector2f F) : Satellite F :=
  mkSat (mkShape (fdec 5 0) Color_Yellow (vec (fdec 5 0) (fdec 5 0)) p)
        v [] true.

(** 100 from the central body, moving towards it at 1000 per
    second. *)
Definition falling : Satellite float :=
  sat_at (v32 600 550) (v32 0 (-1000)).

(** Inside the central body, at rest. *)
Definition sunk : Satellite float :=
  sat_at (v32 600 500) (v32 0 0).

(** The falling satellite over the reals. *)
Definition fallingR : Satellite R :=
  sat_at (vR 600 550) (vR 0 (-1000)).
End Inputs.

(** * Properties *)

(** ** Lists: erase, assign, and the trail *)

Section ListFacts.
Context {F : Type} {ops : Flt F}.

Lemma assign_at_split (l : list (Satellite F)) :
  forall i s s', nth_error l i = Some s ->
    assign_at i s' l = firstn i l ++ s' :: skipn (S i) l.
Proof.
  induction l as [|a l IH]; intros [|i] s s' H; simpl in *;
    try discriminate; trivial.
  f_equal. exact (IH _ _ _ H).
Qed.

Lemma firstn_succ (l : list (Satellite F)) :
  forall i s, nth_error l i = Some s ->
    firstn (S i) l = firstn i l ++ [s].
Proof.
  induction l as [|a l IH]; intros [|i] s H; simpl in *;
    try discriminate.
  - now injection H as ->.
  - f_equal. exact (IH _ _ H).
Qed.
End ListFacts.

Section Trail.
Context {F : Type} {ops : Flt F}.

Lemma MAX_TRAIL_block : (16 <= MAX_TRAIL)%nat.
Proof. unfold MAX_TRAIL. lia. Qed.

(** The size of the block [trail_append] erases, from the length after
    the push. *)
Lemma trail_append_skipn (t : list (Vertex F)) (p : Vector2f F) :
  let pushed := t ++ [vertex p Color_Green] in
  let len := List.length pushed in
  trail_append t p
  = skipn (if (MAX_TRAIL <? len)%nat
           then Nat.max (len - MAX_TRAIL) 16 else 0) pushed.
Proof.
  intros pushed len. unfold trail_append. fold pushed. fold len.
  destruct (Nat.ltb_spec MAX_TRAIL len) as [Hgt|Hle]; [|reflexivity].
  destruct (Nat.ltb_spec (len - MAX_TRAIL) 16) as [Hs|Hb].
  - now rewrite Nat.max_r by lia.
  - now rewrite Nat.max_l by lia.
Qed.

(** C6.  [trail_append] pushes the point at the back; when the length
    then exceeds [MAX_TRAIL] (3000) it erases the first
    [max (len - MAX_TRAIL) 16] points.  So after any append the trail
    has at most [MAX_TRAIL] points, and it is the pushed trail without
    a block [old] of its oldest points: the order is kept, the points
    kept are the most recent ones, and the new point is the last. *)
Theorem trail_append_bounded (t : list (Vertex F)) (p : Vector2f F) :
  let pushed := t ++ [vertex p Color_Green] in
  let len := List.length pushed in
  let block := if (MAX_TRAIL <? len)%nat
               then Nat.max (len - MAX_TRAIL) 16 else 0%nat in
  trail_append t p = skipn block pushed
  /\ (List.length (trail_append t p) <= MAX_TRAIL)%nat
  /\ (exists old, pushed = old ++ trail_append t p
                  /\ old = firstn block pushed
                  /\ List.length old = block)
  /\ (exists kept, trail_append t p = kept ++ [vertex p Color_Green]).
Proof.
  intros pushed len block.
  assert (Heq : trail_append t p = skipn block pushed)
    by apply trail_append_skipn.
  assert (Hlen : len = S (List.length t)).
  { unfold len, pushed. rewrite length_app. simpl. lia. }
  assert (Hblock : (block < len)%nat /\ (len - block <= MAX_TRAIL)%nat).
  { pose proof MAX_TRAIL_block. unfold block.
    destruct (Nat.ltb_spec MAX_TRAIL len); lia. }
  rewrite Heq. split; [reflexivity|]. split; [|split].
  - rewrite length_skipn. fold len. lia.
  - exists (firstn block pushed). split; [|split; trivial].
    + symmetry. apply firstn_skipn.
    + rewrite length_firstn. fold len. lia.
  - exists (skipn block t). unfold pushed.
    rewrite skipn_app.
    replace (block - List.length t)%nat with 0%nat by lia.
    reflexivity.
Qed.
Lemma trail_append_length (t : list (Vertex F)) (p : Vector2f F) :
  (List.length (trail_append t p) <= MAX_TRAIL)%nat.
Proof.
  rewrite trail_append_skipn, length_skipn. pose proof MAX_TRAIL_block.
  destruct (Nat.ltb_spec MAX_TRAIL
              (List.length (t ++ [vertex p Color_Green]))); lia.
Qed.

Lemma trail_append_suffix (t : list (Vertex F)) (p : Vector2f F) :
  exists old, t ++ [vertex p Color_Green] = old ++ trail_append t p.
Proof.
  rewrite trail_append_skipn. eexists. symmetry. apply firstn_skipn.
Qed.

(** Any run of appends: the trail is what remains of all the points
    pushed, oldest first, after a block of the oldest is gone; and it
    holds at most [MAX_TRAIL] points as soon as one point was
    appended. *)
Lemma trail_appends_recent (pts : list (Vector2f F)) :
  forall t : list (Vertex F),
    let t' := fold_left trail_append pts t in
    (exists old,
        t ++ map (fun p => vertex p Color_Green) pts = old ++ t')
    /\ (pts <> [] -> (List.length t' <= MAX_TRAIL)%nat).
Proof.
  induction pts as [|p pts IH]; intros t; cbv zeta.
  - split; [exists []; simpl; now rewrite app_nil_r | congruence].
  - simpl fold_left. destruct (IH (trail_append t p)) as [[old Hold] Hlen].
    destruct (trail_append_suffix t p) as [old0 Hold0]. split.
    + exists (old0 ++ old). simpl map.
      change (t ++ vertex p Color_Green ::
                map (fun p => vertex p Color_Green) pts)
        with (t ++ [vertex p Color_Green] ++
                map (fun p => vertex p Color_Green) pts).
      now rewrite app_assoc, Hold0, <- !app_assoc, Hold.
    + intros _. destruct pts as [|q pts].
      * simpl. apply trail_append_length.
      * apply Hlen. discriminate.
Qed.
End Trail.

(** ** The physics loop *)

Section Physics.
Context {F : Type} {ops : Flt F}.
Local Open Scope flt_scope.

Lemma mark_dead_fields (s : Satellite F) :
  shape (mark_dead s) = shape s
  /\ velocity (mark_dead s) = velocity s
  /\ trail (mark_dead s) = trail s
  /\ alive (mark_dead s) = false.
Proof. now unfold mark_dead. Qed.

Lemma moved_alive (dt : F) (s : Satellite F) : alive (moved dt s) = true.
Proof. unfold moved. now destruct (live_step _ _ _). Qed.

Lemma sat_tick_dead (dt : F) (s : Satellite F) :
  alive s = false -> sat_tick dt s = [].
Proof. unfold sat_tick. now intros ->. Qed.

Lemma sat_tick_collides (dt : F) (s : Satellite F) :
  alive s = true -> collides s = true -> sat_tick dt s = [mark_dead s].
Proof. unfold sat_tick. now intros -> ->. Qed.

Lemma sat_tick_moved (dt : F) (s : Satellite F) :
  alive s = true -> collides s = false -> sat_tick dt s = [moved dt s].
Proof. unfold sat_tick. now intros -> ->. Qed.

(** One iteration of the loop rewrites slot [i] and nothing else of
    the vector. *)
Lemma physics_body_sats (dt : F) (i : nat) (w : World F) (s : Satellite F) :
  nth_error (sats w) i = Some s ->
  sats (physics_body dt i w)
  = firstn i (sats w) ++ sat_tick dt s ++ skipn (S i) (sats w).
Proof.
  intros Hi. unfold physics_body, sat_tick. rewrite Hi.
  destruct (alive s); cbn [negb]; [|reflexivity].
  unfold collides, moved, live_step. cbv zeta.
  destruct (length (vsub EARTH_CENTER (getPosition s)) <=? EARTH_RADIUS).
  - now apply assign_at_split with (s := s).
  - destruct (live_integrate _ _ _ _) as [pos' vel'].
    now apply assign_at_split with (s := s).
Qed.

(** The loop from index [n - 1] down to [0] has handled the first [n]
    slots, each on its own; erasing slot [i] only shifts slots the
    loop has left behind. *)
Lemma physics_loop_sats (dt : F) :
  forall (n : nat) (w : World F),
    (n <= List.length (sats w))%nat ->
    sats (physics_loop dt n w)
    = flat_map (sat_tick dt) (firstn n (sats w)) ++ skipn n (sats w).
Proof.
  induction n as [|n IH]; intros w Hn; [reflexivity|].
  destruct (nth_error (sats w) n) as [s|] eqn:Hs.
  2:{ apply nth_error_None in Hs. lia. }
  pose proof (physics_body_sats dt n w Hs) as Hb.
  assert (Hfn : List.length (firstn n (sats w)) = n)
    by (rewrite length_firstn; lia).
  simpl physics_loop. rewrite IH.
  - rewrite Hb.
    rewrite firstn_app, Hfn, Nat.sub_diag, firstn_O, app_nil_r.
    rewrite firstn_firstn, Nat.min_id.
    rewrite skipn_app, Hfn, Nat.sub_diag, skipn_O.
    rewrite (skipn_all2 (firstn n (sats w))) by lia.
    rewrite (firstn_succ _ _ Hs), flat_map_app. simpl.
    now rewrite app_nil_r, <- app_assoc.
  - rewrite Hb, length_app, Hfn. lia.
Qed.

(** A whole pass: every satellite is handled by [sat_tick], in
    order. *)
Lemma physics_update_sats (dt : F) (w : World F) :
  sats (physics_update dt w) = flat_map (sat_tick dt) (sats w).
Proof.
  unfold physics_update. rewrite physics_loop_sats by lia.
  now rewrite firstn_all, skipn_all, app_nil_r.
Qed.

Lemma nth_error_middle (before after : list (Satellite F)) (s : Satellite F) :
  nth_error (before ++ s :: after) (List.length before) = Some s.
Proof. induction before; simpl; trivial. Qed.

Lemma assign_at_middle (before after : list (Satellite F))
      (s s' : Satellite F) :
  assign_at (List.length before) s' (before ++ s :: after)
  = before ++ s' :: after.
Proof. induction before; simpl; [trivial | now f_equal]. Qed.

(** C10.  The satellite [s] in slot [length before] is alive and fails
    the collision test of this tick (its distance to [EARTH_CENTER] at
    the start of its update is [<= EARTH_RADIUS]).  Then its iteration
    of the loop stores [mark_dead s] in its slot and changes nothing
    else in the world (no other slot, not the energy counter, nothing
    printed); the whole pass leaves [mark_dead s] in its place among
    its neighbours; and [mark_dead s] is [s] with the same shape (so
    the same position), the same velocity and the same trail, and
    [alive = false]. *)
Theorem collision_changes_only_alive
    (dt : F) (w : World F) (before after : list (Satellite F))
    (s : Satellite F) :
  sats w = before ++ s :: after ->
  alive s = true ->
  collides s = true ->
  physics_body dt (List.length before) w
  = mkWorld (before ++ mark_dead s :: after) (energyCounter w) (cout w)
  /\ sats (physics_update dt w)
     = flat_map (sat_tick dt) before
       ++ mark_dead s :: flat_map (sat_tick dt) after
  /\ shape (mark_dead s) = shape s
  /\ getPosition (mark_dead s) = getPosition s
  /\ velocity (mark_dead s) = velocity s
  /\ trail (mark_dead s) = trail s
  /\ alive (mark_dead s) = false.
Proof.
  intros Hw Ha Hc. split; [|split].
  - unfold physics_body. rewrite Hw, nth_error_middle, Ha. cbn [negb].
    cbv zeta. unfold collides in Hc. rewrite Hc.
    unfold with_sats. now rewrite assign_at_middle.
  - rewrite physics_update_sats, Hw, flat_map_app. simpl.
    now rewrite (sat_tick_collides dt s Ha Hc).
  - now unfold mark_dead, getPosition.
Qed.

(** C1, as the code has it.  A pass of the physics loop handles every
    satellite on its own ([sat_tick]), in order:
    - a satellite whose flag is already [false] is erased before any
      physics runs on it;
    - a live satellite whose distance to [EARTH_CENTER] at the START
      of its update is [<= EARTH_RADIUS] is only flagged
      ([mark_dead]), and the next pass, whatever its time step,
      erases it: it is seen with [alive = false] after one pass only;
    - a live satellite whose distance at the start of its update is
      not [<= EARTH_RADIUS] is integrated and stays alive; nothing
      tests its new position in this pass.
    So a satellite that is alive after a pass is the image by [moved]
    of a live satellite that was outside the radius before the pass. *)
Theorem tick_lifecycle (dt : F) (w : World F) :
  sats (physics_update dt w) = flat_map (sat_tick dt) (sats w)
  /\ (forall s, alive s = false -> sat_tick dt s = [])
  /\ (forall s, alive s = true -> collides s = true ->
        sat_tick dt s = [mark_dead s]
        /\ alive (mark_dead s) = false
        /\ forall dt', sat_tick dt' (mark_dead s) = [])
  /\ (forall s, alive s = true -> collides s = false ->
        sat_tick dt s = [moved dt s] /\ alive (moved dt s) = true)
  /\ (forall s', In s' (sats (physics_update dt w)) ->
        exists s, In s (sats w) /\ alive s = true
                  /\ (if collides s then s' = mark_dead s
                      else s' = moved dt s))
  /\ (forall s', In s' (sats (physics_update dt w)) -> alive s' = true ->
        exists s, In s (sats w) /\ alive s = true
                  /\ collides s = false /\ s' = moved dt s).
Proof.
  pose proof (physics_update_sats dt w) as Hsats.
  assert (Hin : forall s', In s' (sats (physics_update dt w)) ->
            exists s, In s (sats w) /\ alive s = true
                      /\ (if collides s then s' = mark_dead s
                          else s' = moved dt s)).
  { intros s' Hs'. rewrite Hsats in Hs'.
    apply in_flat_map in Hs'. destruct Hs' as (s & Hs & Ht).
    exists s. split; [assumption|]. unfold sat_tick in Ht.
    destruct (alive s); cbn [negb] in Ht; [|contradiction].
    split; [reflexivity|].
    destruct (collides s); simpl in Ht; intuition congruence. }
  split; [exact Hsats|]. split; [apply sat_tick_dead|].
  split; [|split; [|split; [exact Hin|]]].
  - intros s Ha Hc. split; [now apply sat_tick_collides|].
    split; [reflexivity|]. intros dt'. now apply sat_tick_dead.
  - intros s Ha Hc. split; [now apply sat_tick_moved|apply moved_alive].
  - intros s' Hs' Ha'. destruct (Hin s' Hs') as (s & Hs & Ha & Hc).
    exists s. destruct (collides s).
    + subst s'. discriminate Ha'.
    + auto.
Qed.
End Physics.

(** ** The orbit predictor *)

Section Predictor.
Context {F : Type} {ops : Flt F}.
Local Open Scope flt_scope.

(** One iteration of the loop: the test, then the step and the new
    point. *)
Lemma predict_loop_S (n : nat) (p v : Vector2f F) (dt : F)
      (ghost : list (Vertex F)) :
  predict_loop (S n) p v dt ghost
  = if predict_collides p then ghost
    else let '(p', v') := predict_step p v dt in
         predict_loop n p' v' dt (ghost ++ [vertex p' ghost_color]).
Proof. reflexivity. Qed.

(** The loop only ever appends to [ghost]. *)
Lemma predict_loop_acc (dt : F) :
  forall (n : nat) (p v : Vector2f F) (ghost : list (Vertex F)),
    predict_loop n p v dt ghost = ghost ++ predict_loop n p v dt [].
Proof.
  induction n as [|n IH]; intros p v ghost.
  - simpl. now rewrite app_nil_r.
  - rewrite !predict_loop_S. destruct (predict_collides p).
    + now rewrite app_nil_r.
    + destruct (predict_step p v dt) as [p' v'].
      rewrite (IH p' v' (ghost ++ _)), (IH p' v' ([] ++ _)).
      now rewrite <- app_assoc.
Qed.

Lemma predict_state_shift (dt : F) :
  forall (k : nat) (p v : Vector2f F),
    predict_state (S k) p v dt
    = let '(p', v') := predict_step p v dt in predict_state k p' v' dt.
Proof.
  induction k as [|k IH]; intros p v.
  - cbn [predict_state]. now destruct (predict_step p v dt).
  - change (predict_state (S (S k)) p v dt)
      with (let '(p', v') := predict_state (S k) p v dt in
            predict_step p' v' dt).
    rewrite IH. now destruct (predict_step p v dt).
Qed.

Lemma predict_point_shift (dt : F) (p v p' v' : Vector2f F) (k : nat) :
  predict_step p v dt = (p', v') ->
  predict_point p v dt (S k) = predict_point p' v' dt k.
Proof.
  intros H. unfold predict_point.
  now rewrite (predict_state_shift dt (S k) p v), H.
Qed.

(** The loop, run for at most [n] iterations from an empty [ghost]:
    it emits the points after steps [1 .. len], where [len] counts the
    iterations before the first state that fails the test. *)
Lemma predict_loop_path (dt : F) :
  forall (n : nat) (p v : Vector2f F),
    let ghost := predict_loop n p v dt [] in
    let len := List.length ghost in
    (len <= n)%nat
    /\ ghost = map (predict_point p v dt) (seq 0 len)
    /\ (forall k, (k < len)%nat ->
          predict_collides (fst (predict_state k p v dt)) = false)
    /\ ((len < n)%nat ->
          predict_collides (fst (predict_state len p v dt)) = true).
Proof.
  induction n as [|n IH]; intros p v; cbv zeta.
  - simpl. repeat split; trivial; lia.
  - rewrite predict_loop_S.
    destruct (predict_collides p) eqn:Hc.
    + simpl. repeat split; trivial; lia.
    + destruct (predict_step p v dt) as [p' v'] eqn:Hstep.
      rewrite predict_loop_acc.
      destruct (IH p' v') as (Hlen & Hmap & Hout & Hstop).
      set (rest := predict_loop n p' v' dt []) in *.
      simpl List.length. split; [lia|]. split; [|split].
      * simpl. f_equal.
        { unfold predict_point. cbn [predict_state].
          now rewrite Hstep. }
        { rewrite <- seq_shift, map_map.
          rewrite Hmap at 1. apply map_ext.
          intros k. symmetry. now apply predict_point_shift. }
      * intros [|k] Hk; [exact Hc|].
        rewrite predict_state_shift, Hstep. apply Hout. lia.
      * intros Hlt. rewrite predict_state_shift, Hstep.
        apply Hstop. lia.
Qed.

(** C5, as the code has it.  A negative [steps] makes the call throw.
    Otherwise the predictor returns a sequence [ghost] of at most
    [steps] points; its [k]-th point is the position after [k + 1]
    integration steps from the input state.  Each iteration tests the
    state it starts from, never the point it emits: every state the
    loop integrated from is outside the predictor's collision test,
    the loop stops early exactly at the first state that fails it, the
    sequence is empty when the input position fails it, and every
    emitted point except the last one is outside the test.  Nothing
    is said of the last point. *)
Theorem predictOrbit_path (pos vel : Vector2f F) (dt : F) (steps : Z) :
  match predictOrbit pos vel dt steps with
  | None => (steps < 0)%Z
  | Some ghost =>
      let len := List.length ghost in
      (Z.of_nat len <= steps)%Z
      /\ ghost = map (predict_point pos vel dt) (seq 0 len)
      /\ (forall k, (k < len)%nat ->
            predict_collides (fst (predict_state k pos vel dt)) = false)
      /\ ((Z.of_nat len < steps)%Z ->
            predict_collides (fst (predict_state len pos vel dt)) = true)
      /\ (predict_collides pos = true -> ghost = [])
      /\ (forall k pt, nth_error ghost k = Some pt -> (S k < len)%nat ->
            predict_collides (vposition pt) = false)
  end.
Proof.
  unfold predictOrbit. destruct (Z.ltb_spec steps 0) as [Hneg|Hpos];
    [exact Hneg|].
  destruct (predict_loop_path dt (Z.to_nat steps) pos vel)
    as (Hlen & Hmap & Hout & Hstop).
  set (ghost := predict_loop (Z.to_nat steps) pos vel dt []) in *.
  cbv zeta. split; [lia|]. split; [exact Hmap|]. split; [exact Hout|].
  split; [|split].
  - intros Hlt. apply Hstop. lia.
  - intros Hc. apply length_zero_iff_nil.
    destruct (List.length ghost) as [|len] eqn:E; [reflexivity|].
    specialize (Hout 0%nat (Nat.lt_0_succ len)). simpl in Hout.
    congruence.
  - intros k pt Hk Hlast. rewrite Hmap in Hk.
    rewrite nth_error_map, nth_error_seq in Hk.
    destruct (Nat.ltb_spec k (List.length ghost)) as [_|Hge]; [|lia].
    simpl in Hk. injection Hk as <-.
    unfold predict_point. cbn [vposition]. now apply Hout.
Qed.

(** Click handling and the physics pass read and write [sats]
    without looking at the energy counter or at what was printed. *)
Lemma handle_events_sats (events : list (Event F)) :
  forall w1 w2 : World F, sats w1 = sats w2 ->
    sats (fold_left handle_event events w1)
    = sats (fold_left handle_event events w2).
Proof.
  induction events as [|e events IH]; intros w1 w2 H; [exact H|].
  simpl. apply IH. destruct e as [worldPos|]; [|exact H].
  unfold handle_event, spawn. cbv zeta.
  destruct (_ <? _); [|exact H]. simpl. now rewrite H.
Qed.

(** C8.  The predictor is a function of its four arguments alone:
    equal arguments give the same result, hence the same length and
    the same points.  The path of a frame is the predictor's result
    on the position and velocity of [sats[0]]: two worlds whose first
    satellites agree on these two have the same path, whatever their
    other satellites, trails, flags, energy counter and output are;
    and the path a whole frame hands to the renderer does not depend
    on the energy counter or the output the frame started with. *)
Theorem predictOrbit_deterministic :
  (forall (pos pos' vel vel' : Vector2f F) (dt dt' : F) (steps steps' : Z),
      pos = pos' -> vel = vel' -> dt = dt' -> steps = steps' ->
      predictOrbit pos vel dt steps = predictOrbit pos' vel' dt' steps'
      /\ option_map (@List.length _) (predictOrbit pos vel dt steps)
         = option_map (@List.length _) (predictOrbit pos' vel' dt' steps'))
  /\ (forall (w1 w2 : World F) (s1 s2 : Satellite F)
             (rest1 rest2 : list (Satellite F)),
      sats w1 = s1 :: rest1 -> sats w2 = s2 :: rest2 ->
      getPosition s1 = getPosition s2 -> velocity s1 = velocity s2 ->
      predictedPath w1 = predictedPath w2
      /\ predictedPath w1
         = predictOrbit (getPosition s1) (velocity s1)
                        predict_dt predict_steps)
  /\ (forall (dt_raw : F) (events : list (Event F)) (w1 w2 : World F),
      sats w1 = sats w2 ->
      snd (frame dt_raw events w1) = snd (frame dt_raw events w2)).
Proof.
  split; [|split].
  - intros; subst; split; reflexivity.
  - intros w1 w2 s1 s2 rest1 rest2 H1 H2 Hp Hv.
    unfold predictedPath. rewrite H1, H2, Hp, Hv. split; reflexivity.
  - intros dt_raw events w1 w2 H. unfold frame. cbv zeta.
    cbn [snd]. unfold predictedPath.
    rewrite !physics_update_sats.
    now rewrite (handle_events_sats events w1 w2 H).
Qed.
End Predictor.

(** ** The real-number reading *)

Section ExactFacts.
Import Exact.
Local Open Scope R_scope.

Lemma Rleb_true (a b : R) : Rleb a b = true <-> a <= b.
Proof. unfold Rleb. destruct (Rle_dec a b); intuition discriminate. Qed.

Lemma Rleb_false (a b : R) : Rleb a b = false <-> b < a.
Proof.
  unfold Rleb. destruct (Rle_dec a b); split; intros; trivial;
    try discriminate; lra.
Qed.

Lemma Rltb_true (a b : R) : Rltb a b = true <-> a < b.
Proof. unfold Rltb. destruct (Rlt_dec a b); intuition discriminate. Qed.

Lemma Rltb_false (a b : R) : Rltb a b = false <-> b <= a.
Proof.
  unfold Rltb. destruct (Rlt_dec a b); split; intros; trivial;
    try discriminate; lra.
Qed.

Lemma fmax_Rmax (a b : R) : fmax a b = Rmax a b.
Proof.
  unfold fmax. cbn [fltb ops]. unfold Rmax.
  destruct (Rle_dec a b) as [Hle|Hgt].
  - destruct (Rltb a b) eqn:E; [reflexivity|].
    apply Rltb_false in E. lra.
  - destruct (Rltb a b) eqn:E; [|reflexivity].
    apply Rltb_true in E. lra.
Qed.

Lemma fmin_Rmin (a b : R) : fmin a b = Rmin a b.
Proof.
  unfold fmin. cbn [fltb ops]. unfold Rmin.
  destruct (Rle_dec a b) as [Hle|Hgt].
  - destruct (Rltb b a) eqn:E; [|reflexivity].
    apply Rltb_true in E. lra.
  - destruct (Rltb b a) eqn:E; [reflexivity|].
    apply Rltb_false in E. lra.
Qed.

(** The constants, as real numbers. *)
Lemma G_val : G = 1 / 5.
Proof. unfold G. cbn. unfold dec. simpl pow. lra. Qed.
Lemma EARTH_MASS_val : EARTH_MASS = 5000.
Proof. unfold EARTH_MASS. cbn. unfold dec. simpl pow. lra. Qed.
Lemma J2_STRENGTH_val : J2_STRENGTH = 5 / 100000.
Proof. unfold J2_STRENGTH. cbn. unfold dec. simpl pow. lra. Qed.
Lemma EARTH_RADIUS_val : EARTH_RADIUS = 90.
Proof. unfold EARTH_RADIUS. cbn. unfold dec. simpl pow. lra. Qed.
Lemma MIN_DIST_val : MIN_DIST = 1 / 1000.
Proof. unfold MIN_DIST. cbn. unfold dec. simpl pow. lra. Qed.
Lemma MAX_DT_val : MAX_DT = 1 / 20.
Proof. unfold MAX_DT. cbn. unfold dec. simpl pow. lra. Qed.
Lemma ORBIT_SPEED_SCALE_val : ORBIT_SPEED_SCALE = 4.
Proof. unfold ORBIT_SPEED_SCALE. cbn. unfold dec. simpl pow. lra. Qed.
Lemma EARTH_CENTER_val : EARTH_CENTER = vec 600 450.
Proof.
  unfold EARTH_CENTER. cbn. unfold dec. simpl pow. f_equal; lra.
Qed.
Lemma fdec_int (m : Z) : fdec m 0 = IZR m.
Proof. cbn. unfold dec. simpl pow. lra. Qed.

Lemma length_val (v : Vector2f R) :
  length v = sqrt (x v * x v + y v * y v).
Proof. reflexivity. Qed.

Lemma length_nonneg (v : Vector2f R) : 0 <= length v.
Proof. rewrite length_val. apply sqrt_pos. Qed.

Lemma length_sqr (v : Vector2f R) :
  length v * length v = x v * x v + y v * y v.
Proof. rewrite length_val. apply sqrt_sqrt. nra. Qed.

(** A length is known as soon as its square is. *)
Lemma length_is (a b r : R) :
  0 <= r -> r * r = a * a + b * b -> length (vec a b) = r.
Proof.
  intros Hr Hsq. rewrite length_val. cbn [x y].
  apply sqrt_lem_1; nra.
Qed.

Lemma length_le (a b r : R) :
  0 <= r -> a * a + b * b <= r * r -> length (vec a b) <= r.
Proof.
  intros Hr Hsq. rewrite length_val. cbn [x y].
  rewrite <- (sqrt_square r Hr). now apply sqrt_le_1_alt.
Qed.

Lemma length_lt (a b r : R) :
  0 <= r -> r * r < a * a + b * b -> r < length (vec a b).
Proof.
  intros Hr Hsq. rewrite length_val. cbn [x y].
  rewrite <- (sqrt_square r Hr) at 1. apply sqrt_lt_1_alt. nra.
Qed.

Lemma normalize_far (v : Vector2f R) :
  MIN_DIST < length v -> normalize v = vdiv v (length v).
Proof.
  intros Hgt. unfold normalize. cbv zeta. cbn [fleb ops].
  apply Rleb_false in Hgt. now rewrite Hgt.
Qed.

Lemma normalize_near (v : Vector2f R) :
  length v <= MIN_DIST -> normalize v = vec 0 0.
Proof.
  intros Hle. unfold normalize. cbv zeta. cbn [fleb ops].
  apply Rleb_true in Hle. now rewrite Hle, fdec_int.
Qed.

Lemma normalize_far_length (v : Vector2f R) :
  MIN_DIST < length v -> length (normalize v) = 1.
Proof.
  intros Hgt. rewrite (normalize_far v Hgt).
  pose proof (length_sqr v) as Hsq.
  assert (Hm : 0 < length v) by (rewrite MIN_DIST_val in Hgt; lra).
  unfold vdiv. cbn [fdiv ops].
  apply length_is; [lra|].
  transitivity ((x v * x v + y v * y v) / (length v * length v)).
  - rewrite <- Hsq. field. lra.
  - field. lra.
Qed.
End ExactFacts.

Section ExactStep.
Import Exact.
Local Open Scope R_scope.

Lemma clamp_dt_val (dt_raw : R) :
  clamp_dt dt_raw = Rmin (if Rleb dt_raw 0 then 1 / 60 else dt_raw) (1 / 20).
Proof.
  unfold clamp_dt. cbv zeta. rewrite fmin_Rmin, !fdec_int, MAX_DT_val.
  cbn [fleb fdiv ops]. reflexivity.
Qed.

(** The energy the code computes: the distance is the length of
    [pos] itself, that is the distance to the origin. *)
Lemma energy_from_origin (pos vel : Vector2f R) :
  energy pos vel
  = 1 / 2 * (x vel * x vel + y vel * y vel)
    - G * EARTH_MASS / Rmax (sqrt (x pos * x pos + y pos * y pos)) MIN_DIST.
Proof.
  unfold energy. cbv zeta. rewrite fmax_Rmax, length_val.
  cbn [fadd fmul fdiv fneg fdec ops]. unfold dec. simpl pow.
  replace (5 / (10 * 1)) with (1 / 2) by lra.
  unfold Rdiv. ring.
Qed.

(** The two steps follow the same rule, each around its own centre:
    the live step around [EARTH_CENTER], the predictor's around the
    origin. *)
Lemma live_step_centered (pos vel : Vector2f R) (dt : R) :
  live_step pos vel dt
  = let '(p', v') := predict_step (vsub pos EARTH_CENTER) vel dt in
    (vadd p' EARTH_CENTER, v').
Proof.
  assert (Hd : vsub EARTH_CENTER pos = vneg (vsub pos EARTH_CENTER)).
  { unfold vsub, vneg. cbn [x y fsub fneg ops]. f_equal; ring. }
  unfold live_step, predict_step, live_integrate, predict_integrate.
  cbv zeta. rewrite Hd. f_equal.
  unfold vadd, vsub. cbn [x y fadd fsub ops]. f_equal; ring.
Qed.
End ExactStep.

Section ExactSpawn.
Import Exact.
Local Open Scope R_scope.

(** A click outside [EARTH_RADIUS + 5]: exactly one satellite is
    pushed at the back, at the clicked position, with an empty trail;
    over the reals its speed is [sqrt (G M / max r MIN_DIST)] times
    [ORBIT_SPEED_SCALE] and its velocity is orthogonal to the radius
    from [EARTH_CENTER]. *)
Lemma spawn_accepts (worldPos : Vector2f R) (w : World R) :
  let r := length (vsub worldPos EARTH_CENTER) in
  EARTH_RADIUS + 5 < r ->
  exists ns,
    spawn worldPos w = mkWorld (sats w ++ [ns]) (energyCounter w) (cout w)
    /\ getPosition ns = worldPos
    /\ trail ns = [] /\ alive ns = true
    /\ length (velocity ns)
       = sqrt (G * EARTH_MASS / Rmax r MIN_DIST) * ORBIT_SPEED_SCALE
    /\ dot (velocity ns) (vsub worldPos EARTH_CENTER) = 0.
Proof.
  intros r Hr. unfold spawn. cbv zeta. fold r.
  cbn [fltb fadd ops]. rewrite fdec_int.
  apply Rltb_true in Hr as Hb. rewrite Hb.
  eexists. split; [reflexivity|].
  cbn [getPosition shape position trail alive velocity].
  repeat (split; [reflexivity|]).
  rewrite fmax_Rmax. cbn [fsqrt fdiv fmul ops].
  set (v := sqrt (G * EARTH_MASS / Rmax r MIN_DIST) * ORBIT_SPEED_SCALE).
  assert (Hv : 0 <= v).
  { unfold v. rewrite ORBIT_SPEED_SCALE_val.
    pose proof (sqrt_pos (G * EARTH_MASS / Rmax r MIN_DIST)). lra. }
  assert (Hr0 : MIN_DIST < r).
  { rewrite MIN_DIST_val. rewrite EARTH_RADIUS_val in Hr. lra. }
  pose proof (normalize_far _ Hr0) as Hdir.
  pose proof (normalize_far_length _ Hr0) as Hunit. fold r in Hdir.
  set (dir := normalize (vsub worldPos EARTH_CENTER)) in *.
  pose proof (length_sqr dir) as Hsq. rewrite Hunit in Hsq.
  assert (Hrpos : r <> 0) by (rewrite MIN_DIST_val in Hr0; lra).
  split.
  - unfold vmul. cbn [x y fmul fneg ops].
    apply length_is; [exact Hv|].
    transitivity (v * v * (x dir * x dir + y dir * y dir)); [|ring].
    rewrite <- Hsq. ring.
  - rewrite Hdir. unfold dot, vmul, vdiv.
    cbn [x y fmul fdiv fneg fadd ops]. field. exact Hrpos.
Qed.

(** A click within [EARTH_RADIUS + 5] of [EARTH_CENTER] changes
    nothing. *)
Lemma spawn_rejects (worldPos : Vector2f R) (w : World R) :
  length (vsub worldPos EARTH_CENTER) <= EARTH_RADIUS + 5 ->
  spawn worldPos w = w.
Proof.
  intros Hr. unfold spawn. cbv zeta.
  cbn [fltb fadd ops]. rewrite fdec_int.
  apply Rltb_false in Hr. now rewrite Hr.
Qed.
End ExactSpawn.

(** ** Order and branches in binary32 *)

Section Binary32Facts.
Import Binary32.

(** Swapping the operands of a comparison reverses its outcome. *)
Lemma SFcompare_antisym (a b : float) :
  SFcompare b a = option_map CompOpp (SFcompare a b).
Proof.
  destruct a as [s1|s1| |s1 m1 e1], b as [s2|s2| |s2 m2 e2];
    try destruct s1; try destruct s2; try reflexivity;
    simpl; rewrite (Z.compare_antisym e1 e2);
    destruct (e1 ?= e2)%Z; simpl; trivial;
    change (Pos.compare_cont Eq m2 m1) with (m2 ?= m1)%positive;
    change (Pos.compare_cont Eq m1 m2) with (m1 ?= m2)%positive;
    rewrite (Pos.compare_antisym m1 m2);
    now destruct (m1 ?= m2)%positive.
Qed.

Lemma fltb_fleb (a b : float) :
  (a <? b)%flt = true -> (b <=? a)%flt = false.
Proof.
  cbn [fltb fleb ops]. unfold SFltb, SFleb.
  rewrite (SFcompare_antisym a b).
  now destruct (SFcompare a b) as [[]|].
Qed.

Lemma fltb_false_fleb (a b : float) :
  a <> S754_nan -> b <> S754_nan ->
  (a <? b)%flt = false -> (b <=? a)%flt = true.
Proof.
  intros Ha Hb. cbn [fltb fleb ops]. unfold SFltb, SFleb.
  rewrite (SFcompare_antisym a b).
  destruct (SFcompare a b) as [[]|] eqn:E; trivial; try discriminate.
  destruct a, b; try discriminate; congruence.
Qed.

Lemma fleb_false_fltb (a b : float) :
  a <> S754_nan -> b <> S754_nan ->
  (a <=? b)%flt = false -> (b <? a)%flt = true.
Proof.
  intros Ha Hb. cbn [fltb fleb ops]. unfold SFltb, SFleb.
  rewrite (SFcompare_antisym a b).
  destruct (SFcompare a b) as [[]|] eqn:E; trivial; try discriminate.
  destruct a, b; try discriminate; congruence.
Qed.

(** The time step in binary32, for a clock reading that is a number:
    it is positive and at most [MAX_DT]; a reading [<= 0] gives 1/60,
    a reading above [MAX_DT] gives [MAX_DT], and any other reading is
    kept. *)
Lemma clamp_dt_binary32 (dt_raw : float) :
  dt_raw <> S754_nan ->
  (fdec 0 0 <? clamp_dt dt_raw)%flt = true
  /\ (clamp_dt dt_raw <=? MAX_DT)%flt = true
  /\ ((dt_raw <=? fdec 0 0)%flt = true ->
        clamp_dt dt_raw = (fdec 1 0 / fdec 60 0)%flt)
  /\ ((MAX_DT <? dt_raw)%flt = true -> clamp_dt dt_raw = MAX_DT)
  /\ ((fdec 0 0 <? dt_raw)%flt = true ->
      (dt_raw <=? MAX_DT)%flt = true ->
        clamp_dt dt_raw = dt_raw).
Proof.
  intros Hnan. unfold clamp_dt, fmin. cbv zeta.
  destruct (dt_raw <=? fdec 0 0)%flt eqn:E0.
  - split; [vm_compute; reflexivity|].
    split; [vm_compute; reflexivity|].
    split; [intros _; vm_compute; reflexivity|]. split.
    + intros H. apply fltb_fleb in H.
      assert (Hle : (MAX_DT <=? fdec 0 0)%flt = false)
        by (vm_compute; reflexivity).
      destruct dt_raw as [s|s| |s m e]; try congruence;
        destruct s; discriminate.
    + intros H. apply fltb_fleb in H. congruence.
  - apply fleb_false_fltb in E0 as Hpos; [|exact Hnan|discriminate].
    destruct (MAX_DT <? dt_raw)%flt eqn:E1.
    + split; [vm_compute; reflexivity|].
      split; [vm_compute; reflexivity|].
      split; [discriminate|]. split; [reflexivity|].
      intros _ H. apply fltb_fleb in E1. congruence.
    + split; [exact Hpos|].
      split; [apply fltb_false_fleb; [discriminate|exact Hnan|exact E1]|].
      split; [discriminate|]. split; [discriminate|reflexivity].
Qed.

(** [normalize] in binary32: the quotient when the length is above
    [MIN_DIST], the zero vector when it is at most [MIN_DIST]. *)
Lemma normalize_binary32 (v : Vector2f float) :
  ((MIN_DIST <? length v)%flt = true -> normalize v = vdiv v (length v))
  /\ ((length v <=? MIN_DIST)%flt = true
      -> normalize v = vec (of_Z 0) (of_Z 0)).
Proof.
  unfold normalize. cbv zeta. split.
  - intros H. apply fltb_fleb in H. now rewrite H.
  - intros H. now rewrite H.
Qed.
End Binary32Facts.

(** ** The program on concrete inputs, in binary32 *)

Section Binary32Runs.
Import Binary32 Inputs.

(** One frame on a satellite 100 from the centre and falling at 1000
    per second: it is integrated to about (600, 499.9997), 50 from
    [EARTH_CENTER], and is still alive. *)
Lemma falling_frame :
  sats (fst (frame (fdec 5 2) [] (mkWorld [falling] 0 [])))
  = [mkSat (mkShape (of_Z 5) Color_Yellow (v32 5 5)
              (vec (of_Z 600) (S754_finite false 16383992 (-15))))
           (vec (S754_finite false 8589935 (-35))
                (S754_finite true 16384082 (-14)))
           [vertex (vec (of_Z 600) (S754_finite false 16383992 (-15)))
                   Color_Green]
           true].
Proof. vm_compute. reflexivity. Qed.

(** The predictor from (100, 0) at velocity (-1000, 0): one point,
    about (79.99996, -0.000002), then the loop stops. *)
Lemma predict_into_radius :
  predictOrbit (v32 100 0) (v32 (-1000) 0) (fdec 2 2) 400
  = Some [vertex (vec (S754_finite false 10485755 (-17))
                      (S754_finite true 8796093 (-42)))
                 ghost_color].
Proof. vm_compute. reflexivity. Qed.

(** The predictor from (720, 540), 150 from [EARTH_CENTER], at
    velocity (-4000, -3000), for one step: the point (640, 480), 50
    from [EARTH_CENTER]. *)
Lemma predict_near_center :
  predictOrbit (v32 720 540) (v32 (-4000) (-3000)) (fdec 2 2) 1
  = Some [vertex (v32 640 480) ghost_color].
Proof. vm_compute. reflexivity. Qed.

(** The two steps at (600, 0), at rest, with time step 0.02. *)
Lemma steps_differ :
  predict_step (v32 600 0) (v32 0 0) (fdec 2 2)
  = (vec (of_Z 600) (S754_finite true 13194139 (-40)),
     vec (S754_finite true 15270995 (-38))
         (S754_finite true 10307921 (-34)))
  /\ live_step (v32 600 0) (v32 0 0) (fdec 2 2)
     = (vec (of_Z 600) (S754_finite false 8687499 (-42)),
        vec (S754_finite true 15461881 (-35))
            (S754_finite false 13574218 (-37))).
Proof. vm_compute. split; reflexivity. Qed.

(** [energy] at (600, 0), at rest: about -1.6666666, where the
    specification's formula gives about -2.2222223. *)
Lemma energy_at_600 :
  energy (v32 600 0) (v32 0 0) = S754_finite true 13981013 (-23)
  /\ energy_spec (v32 600 0) (v32 0 0)
     = S754_finite true 9320676 (-22).
Proof. vm_compute. split; reflexivity. Qed.

(** A raw time step of 0.0005 is kept, and is below [MIN_DIST]. *)
Lemma clamp_dt_small :
  clamp_dt (fdec 5 4 : float) = fdec 5 4
  /\ (fdec 5 4 <? (MIN_DIST : float))%flt = true.
Proof. vm_compute. split; reflexivity. Qed.

(** In binary32 the length of a normalized vector is 1 only up to
    rounding: for (1, 3) it is 1 - 2^-24. *)
Lemma normalize_rounds :
  length (normalize (v32 3 4)) = of_Z 1
  /\ length (normalize (v32 1 3)) = S754_finite false 16777215 (-24).
Proof. vm_compute. split; reflexivity. Qed.

(** A full trail of 3000 points: the push makes 3001, and a block of
    16 is erased. *)
Lemma trail_full_append :
  List.length (trail_append (repeat (vertex (v32 1 2) Color_Green) 3000)
                            (v32 3 4)) = 2985%nat.
Proof. vm_compute. reflexivity. Qed.

(** The starter satellite moves along the y axis at about 6.761; a
    click at its position would give about (4.873, -2.707). *)
Lemma starter_velocity :
  velocity (starter (F := float))
  = vec (S754_zero false) (S754_finite false 14179336 (-21))
  /\ map (@velocity float)
         (sats (spawn (getPosition starter) (mkWorld [] 0 [])))
     = [vec (S754_finite false 10220403 (-21))
            (S754_finite true 11356004 (-22))].
Proof. vm_compute. split; reflexivity. Qed.
End Binary32Runs.

(** ** The program on concrete inputs, over the reals *)

Ltac Rconsts :=
  rewrite ?EARTH_CENTER_val, ?EARTH_RADIUS_val, ?MIN_DIST_val, ?G_val,
    ?EARTH_MASS_val, ?J2_STRENGTH_val, ?MAX_DT_val, ?ORBIT_SPEED_SCALE_val,
    ?fdec_int.

Section ExactRuns.
Import Exact Inputs.
Local Open Scope R_scope.

(** The live step in closed form, at a position whose distance [r] to
    (600, 450) is known and above [MIN_DIST]. *)
Lemma live_step_far (pos vel : Vector2f R) (dt r : R) :
  0 <= r ->
  r * r = (600 - x pos) * (600 - x pos) + (450 - y pos) * (450 - y pos) ->
  1 / 1000 < r ->
  live_step pos vel dt =
  let a := 1000 / (r * r + 1 / 1000) in
  let dx := (600 - x pos) / r in
  let dy := (450 - y pos) / r in
  let vx := x vel + (dx * a + - dy * (5 / 100000) * r) * dt in
  let vy := y vel + (dy * a + dx * (5 / 100000) * r) * dt in
  (vec (x pos + vx * dt) (y pos + vy * dt), vec vx vy).
Proof.
  intros Hr Hsq Hfar.
  assert (Hlen : length (vsub EARTH_CENTER pos) = r).
  { rewrite EARTH_CENTER_val. unfold vsub. cbn [x y fsub ops].
    now apply length_is. }
  unfold live_step, live_integrate. cbv zeta.
  rewrite normalize_far by (rewrite Hlen, MIN_DIST_val; exact Hfar).
  rewrite Hlen. Rconsts.
  unfold vadd, vmul, vdiv, vsub. cbn [x y fadd fsub fmul fdiv fneg ops].
  replace (1 / 5 * 5000) with 1000 by lra. reflexivity.
Qed.

(** The predictor's step in closed form, at a position whose distance
    [r] to the origin is known and above [MIN_DIST]. *)
Lemma predict_step_far (p v : Vector2f R) (dt r : R) :
  0 <= r ->
  r * r = x p * x p + y p * y p ->
  1 / 1000 < r ->
  predict_step p v dt =
  let a := 1000 / (r * r + 1 / 1000) in
  let dx := - x p / r in
  let dy := - y p / r in
  let vx := x v + (dx * a + - dy * (5 / 100000) * r) * dt in
  let vy := y v + (dy * a + dx * (5 / 100000) * r) * dt in
  (vec (x p + vx * dt) (y p + vy * dt), vec vx vy).
Proof.
  intros Hr Hsq Hfar.
  assert (Hlen : length (vneg p) = r).
  { unfold vneg. cbn [x y fneg ops]. apply length_is; [exact Hr|].
    rewrite Hsq. ring. }
  unfold predict_step, predict_integrate. cbv zeta.
  rewrite normalize_far by (rewrite Hlen, MIN_DIST_val; exact Hfar).
  rewrite Hlen. Rconsts.
  unfold vadd, vmul, vdiv, vneg. cbn [x y fadd fmul fdiv fneg ops].
  replace (1 / 5 * 5000) with 1000 by lra. reflexivity.
Qed.

(** The attraction [1000 / (r^2 + 1/1000)] is small away from the
    centre. *)
Lemma accel_small (r : R) :
  90 <= r -> 0 < 1000 / (r * r + 1 / 1000) < 1.
Proof.
  intros Hr. set (a := 1000 / (r * r + 1 / 1000)).
  assert (Hd : 8100 <= r * r) by nra.
  assert (Ha : a * (r * r + 1 / 1000) = 1000) by (unfold a; field; lra).
  split; nra.
Qed.

Lemma clamp_dt_twentieth : clamp_dt (5 / 100) = 1 / 20.
Proof.
  rewrite clamp_dt_val.
  assert (E : Rleb (5 / 100) 0 = false) by (apply Rleb_false; lra).
  rewrite E. unfold Rmin. destruct (Rle_dec _ _); lra.
Qed.

(** One frame on the falling satellite, over the reals: it is
    integrated, stays alive, and ends within [EARTH_RADIUS] of
    [EARTH_CENTER]. *)
Lemma falling_frame_exact :
  exists s',
    sats (fst (frame (5 / 100) [] (mkWorld [fallingR] 0 []))) = [s']
    /\ alive s' = true /\ collides s' = true.
Proof.
  unfold frame. cbv zeta. cbn [fold_left fst].
  rewrite physics_update_sats, clamp_dt_twentieth. cbn [sats flat_map].
  assert (Hc : collides fallingR = false).
  { unfold collides. cbn [fleb ops]. apply Rleb_false. Rconsts.
    unfold fallingR, sat_at, vR, vsub.
    cbn [getPosition shape position x y fsub ops].
    apply length_lt; lra. }
  rewrite (sat_tick_moved _ fallingR eq_refl Hc), app_nil_r.
  eexists. split; [reflexivity|]. split; [apply moved_alive|].
  unfold collides, moved.
  rewrite (@live_step_far (getPosition fallingR) (velocity fallingR)
                          (1 / 20) 100);
    [| lra
     | unfold fallingR, sat_at, vR;
       cbn [getPosition shape position velocity x y]; lra
     | lra].
  cbv zeta. unfold fallingR, sat_at, vR, setPosition, vsub.
  cbn [getPosition shape position velocity x y fleb fsub ops].
  apply Rleb_true. Rconsts. cbn [x y].
  pose proof (@accel_small 100 ltac:(lra)) as Ha.
  set (a := 1000 / (100 * 100 + 1 / 1000)) in *.
  apply length_le; [lra|]. nra.
Qed.

Lemma fdec_fiftieth : fdec 2 2 = 1 / 50.
Proof. cbn. unfold dec. simpl pow. lra. Qed.

(** The predictor from (100, 0) at velocity (-1000, 0), over the
    reals: one point, which fails the predictor's test, then the loop
    stops. *)
Lemma predict_into_radius_exact :
  exists pt,
    predictOrbit (vR 100 0) (vR (-1000) 0) (fdec 2 2) 400 = Some [pt]
    /\ predict_collides (vposition pt) = true.
Proof.
  unfold predictOrbit. cbn [Z.ltb Z.compare].
  replace (Z.to_nat 400) with (S (S 398)) by reflexivity.
  rewrite fdec_fiftieth, predict_loop_S.
  assert (Hc : predict_collides (vR 100 0) = false).
  { unfold predict_collides, vR, vneg. cbn [fleb fneg ops x y].
    apply Rleb_false. Rconsts. apply length_lt; lra. }
  rewrite Hc.
  rewrite (@predict_step_far (vR 100 0) (vR (-1000) 0) (1 / 50) 100);
    [| lra | unfold vR; cbn [x y]; lra | lra].
  cbv zeta. unfold vR. cbn [x y app].
  pose proof (@accel_small 100 ltac:(lra)) as Ha.
  set (a := 1000 / (100 * 100 + 1 / 1000)) in *.
  rewrite predict_loop_S.
  match goal with |- context [predict_collides ?p] =>
    assert (Hc1 : predict_collides p = true) end.
  { unfold predict_collides, vneg. cbn [fleb fneg ops x y].
    apply Rleb_true. Rconsts. apply length_le; [lra|]. nra. }
  rewrite Hc1. eexists. split; [reflexivity|]. exact Hc1.
Qed.

(** The predictor from (720, 540), 150 from [EARTH_CENTER], at
    velocity (-4000, -3000), for one step: the point it emits is
    within [EARTH_RADIUS] of [EARTH_CENTER]. *)
Lemma predict_near_center_exact :
  exists pt,
    predictOrbit (vR 720 540) (vR (-4000) (-3000)) (fdec 2 2) 1 = Some [pt]
    /\ 90 < length (vsub EARTH_CENTER (vR 720 540))
    /\ length (vsub EARTH_CENTER (vposition pt)) <= EARTH_RADIUS.
Proof.
  unfold predictOrbit. cbn [Z.ltb Z.compare].
  replace (Z.to_nat 1) with 1%nat by reflexivity.
  rewrite fdec_fiftieth, predict_loop_S.
  assert (Hc : predict_collides (vR 720 540) = false).
  { unfold predict_collides, vR, vneg. cbn [fleb fneg ops x y].
    apply Rleb_false. Rconsts. apply length_lt; lra. }
  rewrite Hc.
  rewrite (@predict_step_far (vR 720 540) (vR (-4000) (-3000)) (1 / 50) 900);
    [| lra | unfold vR; cbn [x y]; lra | lra].
  cbv zeta. unfold vR. cbn [x y app predict_loop].
  pose proof (@accel_small 900 ltac:(lra)) as Ha.
  set (a := 1000 / (900 * 900 + 1 / 1000)) in *.
  eexists. split; [reflexivity|]. cbn [vposition]. Rconsts.
  unfold vsub. cbn [x y fsub ops]. split.
  - apply length_lt; lra.
  - apply length_le; [lra|]. nra.
Qed.

(** At (600, 0), at rest: the live step pulls towards (600, 450), so
    up the y axis; the predictor's step pulls towards the origin and
    drifts down the y axis. *)
Lemma steps_differ_exact :
  predict_step (vR 600 0) (vR 0 0) (fdec 2 2)
  <> live_step (vR 600 0) (vR 0 0) (fdec 2 2).
Proof.
  rewrite fdec_fiftieth.
  rewrite (@predict_step_far (vR 600 0) (vR 0 0) (1 / 50) 600);
    [| lra | unfold vR; cbn [x y]; lra | lra].
  rewrite (@live_step_far (vR 600 0) (vR 0 0) (1 / 50) 450);
    [| lra | unfold vR; cbn [x y]; lra | lra].
  cbv zeta. unfold vR. cbn [x y].
  pose proof (@accel_small 450 ltac:(lra)) as Ha.
  pose proof (@accel_small 600 ltac:(lra)) as Hb.
  set (a := 1000 / (450 * 450 + 1 / 1000)) in *.
  set (b := 1000 / (600 * 600 + 1 / 1000)) in *.
  intros H. apply (f_equal (fun r => y (snd r))) in H. cbn [snd y] in H.
  lra.
Qed.

(** At (600, 0), at rest: [energy] divides by the distance 600 to the
    origin; the specification's formula divides by the distance 450
    to [EARTH_CENTER]. *)
Lemma energy_at_600_exact :
  energy (vR 600 0) (vR 0 0) = - (5 / 3)
  /\ energy_spec (vR 600 0) (vR 0 0) = - (20 / 9).
Proof.
  split.
  - rewrite energy_from_origin. unfold vR. cbn [x y]. Rconsts.
    replace (sqrt (600 * 600 + 0 * 0)) with 600
      by (symmetry; apply sqrt_lem_1; lra).
    rewrite Rmax_left by lra. lra.
  - unfold energy_spec. cbv zeta. rewrite fmax_Rmax. Rconsts.
    unfold vsub, vR. cbn [x y fsub fadd fmul fdiv fdec ops].
    replace (length (vec (600 - 600) (0 - 450))) with 450
      by (symmetry; apply length_is; lra).
    rewrite Rmax_left by lra. unfold dec. simpl pow. lra.
Qed.

(** The starter satellite is about 514.8 from [EARTH_CENTER]; its
    speed is the one of radius 350 and its velocity is not orthogonal
    to the radius. *)
Lemma starter_exact :
  let pos := getPosition (starter (F := R)) in
  let r := length (vsub pos EARTH_CENTER) in
  EARTH_RADIUS + 5 < r
  /\ length (velocity starter)
     <> sqrt (G * EARTH_MASS / Rmax r MIN_DIST) * ORBIT_SPEED_SCALE
  /\ dot (velocity starter) (vsub pos EARTH_CENTER) <> 0.
Proof.
  intros pos r.
  assert (Hr : 500 < r /\ r * r = 265000).
  { unfold r, pos, starter. cbn [getPosition shape position]. Rconsts.
    unfold vsub. cbn [x y fsub ops]. split.
    - apply length_lt; lra.
    - rewrite length_sqr. cbn [x y]. lra. }
  destruct Hr as [Hr Hrr].
  assert (Hs : velocity (starter (F := R))
               = vec 0 (sqrt (1000 / 350) * 4)).
  { unfold starter. cbn [velocity fsqrt fmul fdiv ops]. Rconsts.
    replace (1 / 5 * 5000) with 1000 by lra. reflexivity. }
  assert (Hq : 0 < sqrt (1000 / 350)) by (apply sqrt_lt_R0; lra).
  rewrite Hs. Rconsts. split; [lra|]. split.
  - rewrite (@length_is 0 (sqrt (1000 / 350) * 4) (sqrt (1000 / 350) * 4))
      by nra.
    rewrite Rmax_left by lra.
    replace (1 / 5 * 5000) with 1000 by lra.
    intros H. assert (H' : sqrt (1000 / 350) = sqrt (1000 / r)) by lra.
    apply sqrt_inj in H'; [| lra | apply Rlt_le, Rdiv_lt_0_compat; lra].
    assert (r = 350)
    by (apply (f_equal (fun t => t * 350 * r / 1000)) in H';
        field_simplify in H'; lra).
    subst r. nra.
  - unfold dot. fold pos. unfold pos, starter.
    cbn [getPosition shape position]. Rconsts.
    unfold vsub. cbn [x y fsub fadd fmul ops]. lra.
Qed.
End ExactRuns.

(** ** The claims that read the program both ways *)

Section BothReadings.
Import Exact Binary32 Inputs.

(** C9, as the code has it.  Over the reals, for every vector [v]:
    when [|v| > MIN_DIST], [normalize v] is [v / |v|] and has length 1;
    when [|v| <= MIN_DIST] it is the zero vector.  In binary32 the same
    two branches are taken on the computed length: [normalize v] is the
    quotient of [v] by that length when it is above [MIN_DIST], and the
    zero vector when it is at most [MIN_DIST]; nothing is said there of
    the length of the result. *)
Theorem normalize_unit :
  (forall v : Vector2f R,
      ((MIN_DIST < length v)%R ->
         normalize v = vdiv v (length v) /\ length (normalize v) = 1%R)
      /\ ((length v <= MIN_DIST)%R -> normalize v = vec 0%R 0%R))
  /\ (forall v : Vector2f float,
      ((MIN_DIST <? length v)%flt = true ->
         normalize v = vdiv v (length v))
      /\ ((length v <=? MIN_DIST)%flt = true ->
         normalize v = vec (of_Z 0) (of_Z 0))).
Proof.
  split.
  - intros v. split.
    + intros Hgt. split; [now apply normalize_far
                         |now apply normalize_far_length].
    + apply normalize_near.
  - apply normalize_binary32.
Qed.

(** C9 as stated fails on the program's floats.  For (1, 3) the
    computed length is above [MIN_DIST] and the result has length
    1 - 2^-24, below 1.  For (2^65, 0) the squares overflow, the
    computed length is infinite, so above [MIN_DIST], and the result is
    the zero vector. *)
Lemma normalize_not_unit_binary32 :
  ((MIN_DIST <? length (v32 1 3))%flt = true
   /\ length (normalize (v32 1 3)) = S754_finite false 16777215 (-24)
   /\ (length (normalize (v32 1 3)) <? of_Z 1)%flt = true)
  /\ ((MIN_DIST <? length (v32 (2 ^ 65) 0))%flt = true
      /\ length (v32 (2 ^ 65) 0) = S754_infinity false
      /\ normalize (v32 (2 ^ 65) 0) = vec (S754_zero false) (S754_zero false)
      /\ length (normalize (v32 (2 ^ 65) 0)) = S754_zero false).
Proof.
  split; (split; [vm_compute; reflexivity|]);
    (split; [vm_compute; reflexivity|]).
  - vm_compute. reflexivity.
  - split; vm_compute; reflexivity.
Qed.

(** [normalize_unit] at (3, 4) and at (0, 0). *)
Lemma normalize_unit_witness :
  (MIN_DIST < length (vR 3 4))%R
  /\ normalize (vR 3 4) = vdiv (vR 3 4) (length (vR 3 4))
  /\ length (normalize (vR 3 4)) = 1%R
  /\ normalize (vR 0 0) = vec 0%R 0%R
  /\ normalize (v32 3 4) = vdiv (v32 3 4) (length (v32 3 4))
  /\ normalize (v32 0 0) = vec (of_Z 0) (of_Z 0).
Proof.
  assert (Hfar : (MIN_DIST < length (vR 3 4))%R).
  { rewrite MIN_DIST_val. apply length_lt; lra. }
  assert (Hnear : (length (vR 0 0) <= MIN_DIST)%R).
  { rewrite MIN_DIST_val. apply length_le; lra. }
  destruct normalize_unit as [HR HF].
  split; [exact Hfar|].
  split; [exact (proj1 (proj1 (HR (vR 3 4)) Hfar))|].
  split; [exact (proj2 (proj1 (HR (vR 3 4)) Hfar))|].
  split; [exact (proj2 (HR (vR 0 0)) Hnear)|].
  split.
  - apply (proj1 (HF (v32 3 4))). vm_compute. reflexivity.
  - apply (proj2 (HF (v32 0 0))). vm_compute. reflexivity.
Defined.

(** C7, as the code has it.  The time step of a frame lies in
    [(0, MAX_DT]]: a raw step that is zero or negative is replaced by
    1/60, a raw step above [MAX_DT] is cut to [MAX_DT], and any other
    raw step is used as it is, however small.  This holds over the
    reals, and in binary32 for every clock reading that is a
    number. *)
Theorem clamp_dt_range :
  (forall dt_raw : R,
      (0 < clamp_dt dt_raw <= MAX_DT)%R
      /\ ((dt_raw <= 0)%R -> clamp_dt dt_raw = (1 / 60)%R)
      /\ ((MAX_DT < dt_raw)%R -> clamp_dt dt_raw = MAX_DT)
      /\ ((0 < dt_raw <= MAX_DT)%R -> clamp_dt dt_raw = dt_raw))
  /\ (forall dt_raw : float,
      dt_raw <> S754_nan ->
      (fdec 0 0 <? clamp_dt dt_raw)%flt = true
      /\ (clamp_dt dt_raw <=? MAX_DT)%flt = true
      /\ ((dt_raw <=? fdec 0 0)%flt = true ->
            clamp_dt dt_raw = (fdec 1 0 / fdec 60 0)%flt)
      /\ ((MAX_DT <? dt_raw)%flt = true -> clamp_dt dt_raw = MAX_DT)
      /\ ((fdec 0 0 <? dt_raw)%flt = true ->
          (dt_raw <=? MAX_DT)%flt = true ->
            clamp_dt dt_raw = dt_raw)).
Proof.
  split; [|exact clamp_dt_binary32].
  intros dt_raw. rewrite clamp_dt_val, MAX_DT_val.
  destruct (Rleb dt_raw 0) eqn:E;
    [apply Rleb_true in E | apply Rleb_false in E];
    unfold Rmin; destruct (Rle_dec _ _); repeat split; intros; lra.
Qed.

(** [clamp_dt_range] at the raw steps 0, 7 and 0.01. *)
Lemma clamp_dt_range_witness :
  clamp_dt 0%R = (1 / 60)%R
  /\ clamp_dt 7%R = MAX_DT
  /\ clamp_dt (1 / 100)%R = (1 / 100)%R
  /\ clamp_dt (of_Z 0) = (fdec 1 0 / fdec 60 0)%flt
  /\ clamp_dt (of_Z 7) = MAX_DT
  /\ clamp_dt (fdec 1 2 : float) = fdec 1 2.
Proof.
  destruct clamp_dt_range as [HR HF].
  split; [apply (proj1 (proj2 (HR 0%R))); lra|].
  split; [apply (proj1 (proj2 (proj2 (HR 7%R)))); rewrite MAX_DT_val; lra|].
  split; [apply (proj2 (proj2 (proj2 (HR (1 / 100)%R))));
          rewrite MAX_DT_val; lra|].
  split; [|split].
  - apply (proj1 (proj2 (proj2 (HF (of_Z 0) ltac:(discriminate))))).
    vm_compute. reflexivity.
  - apply (proj1 (proj2 (proj2 (proj2 (HF (of_Z 7) ltac:(discriminate)))))).
    vm_compute. reflexivity.
  - apply (proj2 (proj2 (proj2 (proj2 (HF (dec 1 2) ltac:(discriminate))))));
      vm_compute; reflexivity.
Defined.

(** C7 as stated fails: a raw time step of 0.0005 is positive and below
    [MAX_DT], so it is used as it is, and it is below [MIN_DIST]
    (0.001); in binary32 and over the reals. *)
Lemma clamp_dt_below_epsilon :
  (clamp_dt (fdec 5 4 : float) = fdec 5 4
   /\ (clamp_dt (fdec 5 4 : float) <? MIN_DIST)%flt = true)
  /\ (clamp_dt (5 / 10000)%R = (5 / 10000)%R
      /\ (clamp_dt (5 / 10000)%R < MIN_DIST)%R).
Proof.
  split.
  - split; vm_compute; reflexivity.
  - assert (H : clamp_dt (5 / 10000)%R = (5 / 10000)%R).
    { rewrite clamp_dt_val.
      assert (E : Rleb (5 / 10000) 0 = false) by (apply Rleb_false; lra).
      rewrite E. unfold Rmin. destruct (Rle_dec _ _); lra. }
    rewrite H, MIN_DIST_val. split; lra.
Qed.

(** C1 as stated fails: after one frame with a raw time step of 0.05
    on a world whose only satellite is alive, 100 from [EARTH_CENTER]
    and falling at 1000 per second, that satellite is still in
    [sats], its flag is still [true], and its distance to
    [EARTH_CENTER] is [<= EARTH_RADIUS] (about 50); in binary32 and
    over the reals. *)
Lemma alive_inside_radius :
  (exists s' : Satellite float,
      sats (fst (frame (fdec 5 2) [] (mkWorld [falling] 0 []))) = [s']
      /\ alive s' = true
      /\ (length (vsub EARTH_CENTER (getPosition s')) <=? EARTH_RADIUS)%flt
         = true)
  /\ (exists s' : Satellite R,
      sats (fst (frame (5 / 100)%R [] (mkWorld [fallingR] 0 []))) = [s']
      /\ alive s' = true
      /\ (length (vsub EARTH_CENTER (getPosition s')) <= EARTH_RADIUS)%R).
Proof.
  split.
  - rewrite falling_frame. eexists. split; [reflexivity|].
    split; vm_compute; reflexivity.
  - destruct falling_frame_exact as (s' & Hs & Ha & Hc).
    exists s'. split; [exact Hs|]. split; [exact Ha|].
    now apply Rleb_true.
Qed.

(** [tick_lifecycle] on a world of two satellites, one falling from
    outside the radius and one at rest inside it. *)
Lemma tick_lifecycle_witness :
  sats (physics_update (fdec 5 2) (mkWorld [falling; sunk] 0 []))
  = flat_map (sat_tick (fdec 5 2)) [falling; sunk]
  /\ sat_tick (fdec 5 2) (mark_dead sunk) = []
  /\ sat_tick (fdec 5 2) sunk = [mark_dead sunk]
  /\ sat_tick (fdec 5 2) falling = [moved (fdec 5 2) falling]
  /\ (exists s, In s [falling; sunk] /\ alive s = true
                /\ collides s = false
                /\ moved (fdec 5 2) falling = moved (fdec 5 2) s).
Proof.
  destruct (tick_lifecycle (fdec 5 2) (mkWorld [falling; sunk] 0 []))
    as (Hsats & Hdead & Hflag & Hmove & _ & Halive).
  split; [exact Hsats|].
  split; [apply Hdead; reflexivity|].
  split; [apply (Hflag sunk); vm_compute; reflexivity|].
  split; [apply (Hmove falling); vm_compute; reflexivity|].
  apply (Halive (moved (fdec 5 2) falling)).
  - rewrite Hsats. vm_compute. left. reflexivity.
  - apply moved_alive.
Defined.

(** [collision_changes_only_alive] on the satellite at rest inside the
    radius, in slot 1. *)
Lemma collision_changes_only_alive_witness :
  physics_body (fdec 5 2) 1 (mkWorld [falling; sunk] 7 [])
  = mkWorld [falling; mark_dead sunk] 7 []
  /\ sats (physics_update (fdec 5 2) (mkWorld [falling; sunk] 7 []))
     = flat_map (sat_tick (fdec 5 2)) [falling] ++ [mark_dead sunk]
  /\ getPosition (mark_dead sunk) = v32 600 500
  /\ velocity (mark_dead sunk) = v32 0 0.
Proof.
  destruct (@collision_changes_only_alive float _ (fdec 5 2)
              (mkWorld [falling; sunk] 7 []) [falling] [] sunk)
    as (Hbody & Hpass & _ & Hpos & Hvel & _).
  - reflexivity.
  - reflexivity.
  - vm_compute. reflexivity.
  - split; [exact Hbody|]. split; [exact Hpass|].
    split; [exact Hpos | exact Hvel].
Defined.

(** C5 as stated fails.  From (100, 0) at velocity (-1000, 0) the
    predictor returns one point, about (80, 0), which fails the
    predictor's own collision test: the loop emitted it and stopped
    one iteration later.  From (720, 540), which is 150 from
    [EARTH_CENTER], at velocity (-4000, -3000), the point predicted
    for one step is within [EARTH_RADIUS] of [EARTH_CENTER] (about
    50).  In binary32 and over the reals. *)
Lemma predicted_point_inside_radius :
  (exists pt : Vertex float,
      predictOrbit (v32 100 0) (v32 (-1000) 0) (fdec 2 2) 400 = Some [pt]
      /\ (length (vneg (vposition pt)) <=? EARTH_RADIUS)%flt = true)
  /\ (exists pt : Vertex float,
      predictOrbit (v32 720 540) (v32 (-4000) (-3000)) (fdec 2 2) 1
      = Some [pt]
      /\ (length (vsub EARTH_CENTER (vposition pt)) <=? EARTH_RADIUS)%flt
         = true)
  /\ (exists pt : Vertex R,
      predictOrbit (vR 100 0) (vR (-1000) 0) (fdec 2 2) 400 = Some [pt]
      /\ (length (vneg (vposition pt)) <= EARTH_RADIUS)%R)
  /\ (exists pt : Vertex R,
      predictOrbit (vR 720 540) (vR (-4000) (-3000)) (fdec 2 2) 1
      = Some [pt]
      /\ (length (vsub EARTH_CENTER (vposition pt)) <= EARTH_RADIUS)%R).
Proof.
  split; [|split; [|split]].
  - rewrite predict_into_radius. eexists. split; [reflexivity|].
    vm_compute. reflexivity.
  - rewrite predict_near_center. eexists. split; [reflexivity|].
    vm_compute. reflexivity.
  - destruct predict_into_radius_exact as (pt & Hp & Hc).
    exists pt. split; [exact Hp|]. now apply Rleb_true.
  - destruct predict_near_center_exact as (pt & Hp & _ & Hc).
    exists pt. split; [exact Hp | exact Hc].
Qed.

(** [predictOrbit_path] from a position inside the radius, and from
    (100, 0) where the loop stops after one point. *)
Lemma predictOrbit_path_witness :
  predict_collides (v32 50 0) = true
  /\ predictOrbit (v32 50 0) (v32 0 0) (fdec 2 2) 400 = Some []
  /\ predict_collides
       (fst (predict_state 1 (v32 100 0) (v32 (-1000) 0) (fdec 2 2)))
     = true.
Proof.
  assert (Hc : predict_collides (v32 50 0) = true)
    by (vm_compute; reflexivity).
  split; [exact Hc|]. split.
  - pose proof (predictOrbit_path (v32 50 0) (v32 0 0) (fdec 2 2) 400)
      as H.
    destruct (predictOrbit (v32 50 0) (v32 0 0) (fdec 2 2) 400)
      as [ghost|]; [|exfalso; lia].
    destruct H as (_ & _ & _ & _ & Hempty & _).
    now rewrite (Hempty Hc).
  - pose proof (predictOrbit_path (v32 100 0) (v32 (-1000) 0)
                                  (fdec 2 2) 400) as H.
    rewrite predict_into_radius in H.
    destruct H as (_ & _ & _ & Hstop & _).
    apply Hstop. simpl. lia.
Defined.

(** [predictOrbit_deterministic] on worlds that differ in everything
    but the position and velocity of their first satellite. *)
Lemma predictOrbit_deterministic_witness :
  predictedPath (mkWorld [falling; sunk] 7 [of_Z 1])
  = predictedPath
      (mkWorld [mkSat (shape falling) (velocity falling)
                      [vertex (v32 1 2) Color_Green] false] 0 [])
  /\ snd (frame (fdec 5 2) [LeftClick (v32 900 450)]
                (mkWorld [falling] 7 [of_Z 1]))
     = snd (frame (fdec 5 2) [LeftClick (v32 900 450)]
                  (mkWorld [falling] 0 [])).
Proof.
  destruct (@predictOrbit_deterministic float _) as (_ & Hpath & Hframe).
  split.
  - exact (proj1 (Hpath (mkWorld [falling; sunk] 7 [of_Z 1])
                        (mkWorld [mkSat (shape falling) (velocity falling)
                                   [vertex (v32 1 2) Color_Green] false]
                                 0 [])
                        falling
                        (mkSat (shape falling) (velocity falling)
                               [vertex (v32 1 2) Color_Green] false)
                        [sunk] [] eq_refl eq_refl eq_refl eq_refl)).
  - apply Hframe. reflexivity.
Defined.

(** C2 at (600, 0), at rest, with time step 0.02: the predictor's
    step and the live step give different results, in binary32 and
    over the reals.  The live step accelerates towards (600, 450);
    the predictor's step towards (0, 0). *)
Theorem predict_step_differs :
  predict_step (v32 600 0) (v32 0 0) (fdec 2 2)
  <> live_step (v32 600 0) (v32 0 0) (fdec 2 2)
  /\ predict_step (vR 600 0) (vR 0 0) (fdec 2 2)
     <> live_step (vR 600 0) (vR 0 0) (fdec 2 2).
Proof.
  split; [|exact steps_differ_exact].
  destruct steps_differ as [-> ->]. discriminate.
Qed.

(** C3 at program start: the starter satellite is created at
    (350, 0), about 514.8 from [EARTH_CENTER] and so outside
    [EARTH_RADIUS + 5]; over the reals its speed is not
    [sqrt (G M / max r MIN_DIST) * ORBIT_SPEED_SCALE] for that
    distance [r], and its velocity is not orthogonal to the radius.
    In binary32 its velocity is not the one a click at the same
    position gives. *)
Theorem starter_not_circular :
  (let pos := getPosition (starter (F := R)) in
   let r := length (vsub pos EARTH_CENTER) in
   (EARTH_RADIUS + 5 < r)%R
   /\ length (velocity starter)
      <> (sqrt (G * EARTH_MASS / Rmax r MIN_DIST) * ORBIT_SPEED_SCALE)%R
   /\ dot (velocity starter) (vsub pos EARTH_CENTER) <> 0%R)
  /\ map (@velocity float)
         (sats (spawn (getPosition starter) (mkWorld [] 0 [])))
     <> [velocity (starter (F := float))].
Proof.
  split; [exact starter_exact|].
  destruct starter_velocity as [-> ->]. discriminate.
Qed.

(** C4 at (600, 0), at rest, 450 from [EARTH_CENTER]: [energy]
    returns about -1.6666666 in binary32 and -5/3 over the reals,
    where the formula of the specification gives about -2.2222223 and
    -20/9: the distance [energy] uses is the one to the origin, for
    every position and velocity. *)
Theorem energy_ignores_center :
  (energy (v32 600 0) (v32 0 0) = S754_finite true 13981013 (-23)
   /\ energy_spec (v32 600 0) (v32 0 0)
      = S754_finite true 9320676 (-22))
  /\ (energy (vR 600 0) (vR 0 0) = (- (5 / 3))%R
      /\ energy_spec (vR 600 0) (vR 0 0) = (- (20 / 9))%R)
  /\ (forall pos vel : Vector2f R,
        energy pos vel
        = (1 / 2 * (x vel * x vel + y vel * y vel)
           - G * EARTH_MASS
             / Rmax (sqrt (x pos * x pos + y pos * y pos)) MIN_DIST)%R).
Proof.
  split; [exact energy_at_600|].
  split; [exact energy_at_600_exact | exact energy_from_origin].
Qed.
End BothReadings.

(** ** Runs of the main loop *)

Section RunFacts.
Context {F : Type} {ops : Flt F}.
Local Open Scope flt_scope.

Lemma moved_fields (dt : F) (s : Satellite F) :
  getPosition (moved dt s) = fst (live_step (getPosition s) (velocity s) dt)
  /\ velocity (moved dt s) = snd (live_step (getPosition s) (velocity s) dt)
  /\ trail (moved dt s)
     = trail_append (trail s)
                    (fst (live_step (getPosition s) (velocity s) dt)).
Proof. unfold moved. now destruct (live_step _ _ _). Qed.

(** A click leaves the world as it is or pushes one fresh satellite. *)
Lemma spawn_cases (worldPos : Vector2f F) (w : World F) :
  spawn worldPos w = w
  \/ exists ns,
       spawn worldPos w
       = mkWorld (sats w ++ [ns]) (energyCounter w) (cout w)
       /\ getPosition ns = worldPos /\ trail ns = [] /\ alive ns = true.
Proof.
  unfold spawn. cbv zeta. destruct (_ <? _); [right|left; reflexivity].
  eexists. split; [reflexivity|]. now split.
Qed.

(** A property of single satellites that holds of a fresh satellite,
    survives flagging and holds after every integration is kept by the
    events, by the physics pass, and so by whole runs. *)
Lemma events_invariant (P : Satellite F -> Prop) :
  (forall s, trail s = [] -> P s) ->
  forall (events : list (Event F)) (w : World F),
    Forall P (sats w) -> Forall P (sats (fold_left handle_event events w)).
Proof.
  intros Hnew. induction events as [|e events IH]; intros w Hw; [exact Hw|].
  simpl. apply IH. destruct e as [worldPos|]; [|exact Hw]. simpl.
  destruct (spawn_cases worldPos w) as [->|(ns & -> & _ & Ht & _)];
    [exact Hw|].
  simpl. apply Forall_app. split; [exact Hw|].
  constructor; [now apply Hnew | constructor].
Qed.

Lemma physics_invariant (P : Satellite F -> Prop) :
  (forall s, P s -> P (mark_dead s)) ->
  (forall dt s, P (moved dt s)) ->
  forall (dt : F) (w : World F),
    Forall P (sats w) -> Forall P (sats (physics_update dt w)).
Proof.
  intros Hdead Hmoved dt w Hw. rewrite physics_update_sats.
  induction Hw as [|s l Hs _ IH]; [constructor|].
  simpl. apply Forall_app. split; [|exact IH].
  unfold sat_tick. destruct (alive s); cbn [negb]; [|constructor].
  destruct (collides s); constructor; auto.
Qed.

Lemma run_invariant (P : Satellite F -> Prop) :
  (forall s, trail s = [] -> P s) ->
  (forall s, P s -> P (mark_dead s)) ->
  (forall dt s, P (moved dt s)) ->
  forall (inputs : list (F * list (Event F))) (w : World F),
    Forall P (sats w) -> Forall P (sats (run inputs w)).
Proof.
  intros Hnew Hdead Hmoved. unfold run.
  induction inputs as [|[dt_raw events] inputs IH]; intros w Hw; [exact Hw|].
  simpl. apply IH. unfold frame. cbv zeta. cbn [fst].
  now apply physics_invariant, events_invariant.
Qed.

(** X1.  Trails stay bounded over whole runs: if every trail has at
    most [MAX_TRAIL] points, this still holds after any number of
    frames, whatever the clock readings and the events; in particular
    it holds in every world the program reaches from its start. *)
Theorem run_trails_bounded (inputs : list (F * list (Event F))) :
  (forall w : World F,
      Forall trail_bounded (sats w) ->
      Forall trail_bounded (sats (run inputs w)))
  /\ Forall trail_bounded (sats (run inputs initial)).
Proof.
  assert (H : forall w : World F,
             Forall trail_bounded (sats w) ->
             Forall trail_bounded (sats (run inputs w))).
  { apply run_invariant; unfold trail_bounded.
    - intros s ->. simpl. lia.
    - intros s Hs. exact Hs.
    - intros dt s. destruct (moved_fields dt s) as (_ & _ & ->).
      apply trail_append_length. }
  split; [exact H|]. apply H. simpl.
  constructor; [unfold trail_bounded; simpl; lia | constructor].
Qed.

(** X2.  A trail ends where its satellite is: if every satellite has
    an empty trail or a trail whose newest point is its own position,
    this still holds after any number of frames; in particular it holds
    in every world the program reaches from its start. *)
Theorem run_trails_end_at_position (inputs : list (F * list (Event F))) :
  (forall w : World F,
      Forall trail_at_position (sats w) ->
      Forall trail_at_position (sats (run inputs w)))
  /\ Forall trail_at_position (sats (run inputs initial)).
Proof.
  assert (H : forall w : World F,
             Forall trail_at_position (sats w) ->
             Forall trail_at_position (sats (run inputs w))).
  { apply run_invariant; unfold trail_at_position.
    - intros s ->. now left.
    - intros s Hs. exact Hs.
    - intros dt s. right.
      destruct (moved_fields dt s) as (-> & _ & ->).
      rewrite trail_append_skipn.
      set (p := fst (live_step (getPosition s) (velocity s) dt)).
      set (block := if (MAX_TRAIL <? _)%nat then _ else _).
      assert (Hb : (block <= List.length (trail s))%nat).
      { pose proof MAX_TRAIL_block. unfold block.
        rewrite length_app. simpl.
        destruct (Nat.ltb_spec MAX_TRAIL (List.length (trail s) + 1));
          lia. }
      exists (skipn block (trail s)). rewrite skipn_app.
      replace (block - List.length (trail s))%nat with 0%nat by lia.
      reflexivity. }
  split; [exact H|]. apply H. simpl.
  constructor; [now left | constructor].
Qed.

(** X3.  A pass of the physics loop never adds a satellite: it keeps
    exactly the satellites whose flag was [true] before the pass, so
    their number is the number of live satellites before it. *)
Theorem physics_update_count (dt : F) (w : World F) :
  List.length (sats (physics_update dt w))
  = List.length (filter (@alive F) (sats w))
  /\ (List.length (sats (physics_update dt w))
      <= List.length (sats w))%nat.
Proof.
  rewrite physics_update_sats.
  assert (H : forall l : list (Satellite F),
             List.length (flat_map (sat_tick dt) l)
             = List.length (filter (@alive F) l)).
  { induction l as [|s l IH]; [reflexivity|].
    simpl. rewrite length_app, IH. unfold sat_tick.
    destruct (alive s); cbn [negb]; [|reflexivity].
    now destruct (collides s). }
  split; [apply H|]. rewrite H. apply filter_length_le.
Qed.

Lemma physics_body_firstn (dt : F) (i : nat) (w : World F)
      (s : Satellite F) :
  nth_error (sats w) i = Some s ->
  firstn i (sats (physics_body dt i w)) = firstn i (sats w)
  /\ (i <= List.length (sats (physics_body dt i w)))%nat.
Proof.
  intros Hs. rewrite (physics_body_sats dt i w Hs).
  assert (Hi : (i < List.length (sats w))%nat)
    by (apply nth_error_Some; congruence).
  assert (Hfn : List.length (firstn i (sats w)) = i)
    by (rewrite length_firstn; lia).
  split.
  - rewrite firstn_app, Hfn, Nat.sub_diag, firstn_O, app_nil_r.
    now rewrite firstn_firstn, Nat.min_id.
  - rewrite length_app, Hfn. lia.
Qed.

Lemma int_wrap_in_range (z : Z) :
  (INT_MIN <= z <= INT_MAX)%Z -> int_wrap z = z.
Proof.
  unfold INT_MIN, INT_MAX, int_wrap. intros Hz.
  rewrite Z.mod_small by lia. lia.
Qed.

(** At [INT_MAX] the increment wraps to [INT_MIN]. *)
Lemma int_wrap_overflow : int_wrap (INT_MAX + 1) = INT_MIN.
Proof. reflexivity. Qed.

(** What one iteration does to the counter and to the output. *)
Lemma physics_body_counter (dt : F) (i : nat) (w : World F)
      (s : Satellite F) :
  nth_error (sats w) i = Some s ->
  let c := energyCounter w in
  energyCounter (physics_body dt i w)
  = (if integrated s then int_wrap (c + 1) else c)
  /\ cout (physics_body dt i w)
     = cout w
       ++ (if integrated s && (Z.rem (int_wrap (c + 1)) 200 =? 0)%Z
           then [energy (getPosition (moved dt s)) (velocity (moved dt s))]
           else []).
Proof.
  intros Hs c. unfold physics_body, integrated. rewrite Hs.
  destruct (moved_fields dt s) as (Hp & Hv & _). rewrite Hp, Hv.
  unfold collides, live_step. cbv zeta.
  destruct (alive s); cbn [negb andb];
    [|split; [reflexivity | now rewrite app_nil_r]].
  destruct (length (vsub EARTH_CENTER (getPosition s)) <=? EARTH_RADIUS);
    cbn [negb andb]; [split; [reflexivity | now rewrite app_nil_r]|].
  destruct (live_integrate _ _ _ _) as [pos' vel']. cbn [fst snd].
  fold c. split; [reflexivity|]. cbn [cout].
  destruct (Z.rem (int_wrap (c + 1)) 200 =? 0)%Z;
    [reflexivity | now rewrite app_nil_r].
Qed.

(** Counting up by one crosses a multiple of 200 exactly when the new
    count is one. *)
Lemma sample_cadence (c : Z) :
  (0 <= c)%Z ->
  ((if Z.rem (c + 1) 200 =? 0 then 1 else 0) = (c + 1) / 200 - c / 200)%Z.
Proof.
  intros Hc. rewrite Z.rem_mod_nonneg by lia.
  destruct (Z.eqb_spec ((c + 1) mod 200) 0) as [E|E];
    pose proof (Z.div_mod c 200 ltac:(lia));
    pose proof (Z.div_mod (c + 1) 200 ltac:(lia));
    pose proof (Z.mod_pos_bound c 200 ltac:(lia));
    pose proof (Z.mod_pos_bound (c + 1) 200 ltac:(lia)); lia.
Qed.

Lemma physics_loop_counter (dt : F) :
  forall (n : nat) (w : World F),
    (n <= List.length (sats w))%nat ->
    let c := energyCounter w in
    let k := Z.of_nat (List.length (filter integrated (firstn n (sats w)))) in
    exists printed,
      cout (physics_loop dt n w) = cout w ++ printed
      /\ Forall (fun e => exists s,
                     In s (firstn n (sats w)) /\ integrated s = true
                     /\ e = energy (getPosition (moved dt s))
                                   (velocity (moved dt s)))
                printed
      /\ ((0 <= c)%Z -> (c + k <= INT_MAX)%Z ->
          energyCounter (physics_loop dt n w) = (c + k)%Z
          /\ Z.of_nat (List.length printed)
             = ((c + k) / 200 - c / 200)%Z).
Proof.
  induction n as [|n IH]; intros w Hn; cbv zeta.
  - simpl. exists []. rewrite app_nil_r.
    split; [reflexivity|]. split; [constructor|].
    intros _ _. simpl. rewrite Z.add_0_r. split; lia.
  - destruct (nth_error (sats w) n) as [s|] eqn:Hs.
    2:{ apply nth_error_None in Hs. lia. }
    destruct (physics_body_firstn dt n w Hs) as [Hfirst Hlen].
    destruct (physics_body_counter dt n w Hs) as [Hc1 Hout1].
    destruct (IH (physics_body dt n w) Hlen) as (printed & Hout & Hall & Hcnt).
    rewrite Hfirst in Hall, Hcnt.
    rewrite (firstn_succ _ _ Hs), filter_app, length_app, Nat2Z.inj_add.
    set (k := Z.of_nat (List.length (filter integrated (firstn n (sats w)))))
      in *.
    set (c := energyCounter w) in *.
    simpl physics_loop. simpl filter.
    eexists. split; [rewrite Hout, Hout1, <- app_assoc; reflexivity|].
    split.
    + apply Forall_app. split.
      * destruct (integrated s) eqn:Hi; cbn [andb]; [|constructor].
        destruct (Z.rem (int_wrap (c + 1)) 200 =? 0)%Z; [|constructor].
        constructor; [|constructor]. exists s.
        split; [apply in_or_app; right; now left|]. now split.
      * eapply Forall_impl; [|exact Hall].
        intros e (s0 & Hin & Hi & He). exists s0.
        split; [apply in_or_app; now left | now split].
    + intros Hc0 Hmax. rewrite length_app, Nat2Z.inj_add.
      assert (Hk : (0 <= k)%Z) by (unfold k; lia).
      pose proof (sample_cadence Hc0) as Hcad.
      destruct (integrated s); cbn [andb List.length] in *;
        change (Z.of_nat 1) with 1%Z in *;
        change (Z.of_nat 0) with 0%Z in *.
      * rewrite int_wrap_in_range in *
          by (unfold INT_MIN, INT_MAX in *; lia).
        rewrite Hc1 in Hcnt.
        destruct Hcnt as [Hc' Hn']; [lia | lia |].
        rewrite Hc', Hn'.
        replace (c + (k + 1))%Z with (c + 1 + k)%Z by lia.
        destruct (Z.rem (c + 1) 200 =? 0)%Z; cbn [List.length];
          change (Z.of_nat 1) with 1%Z; change (Z.of_nat 0) with 0%Z;
          split; lia.
      * rewrite Hc1 in Hcnt.
        destruct Hcnt as [Hc' Hn']; [lia | lia |].
        rewrite Hc', Hn'.
        replace (c + (k + 0))%Z with (c + k)%Z by lia. split; lia.
Qed.

(** X4.  A pass of the physics loop only appends to the output, and
    each energy it prints is the one of a satellite the pass
    integrated (alive and outside the radius at the start of its
    update), at its new position and velocity.  As long as the counter
    does not overflow (it is not negative and the integrations of the
    pass keep it within [INT_MAX]), the pass adds to it the number of
    satellites it integrates and prints one energy each time the
    counter reaches a multiple of 200. *)
Theorem physics_update_energy_samples (dt : F) (w : World F) :
  let c := energyCounter w in
  let k := Z.of_nat (List.length (filter integrated (sats w))) in
  exists printed,
    cout (physics_update dt w) = cout w ++ printed
    /\ Forall (fun e => exists s,
                   In s (sats w) /\ integrated s = true
                   /\ e = energy (getPosition (moved dt s))
                                 (velocity (moved dt s)))
              printed
    /\ ((0 <= c)%Z -> (c + k <= INT_MAX)%Z ->
        energyCounter (physics_update dt w) = (c + k)%Z
        /\ Z.of_nat (List.length printed) = ((c + k) / 200 - c / 200)%Z).
Proof.
  pose proof (@physics_loop_counter dt (List.length (sats w)) w
                                    (Nat.le_refl _)) as H.
  cbv zeta in H. rewrite firstn_all in H. exact H.
Qed.

(** X5.  The events of a frame only append: whatever the events, the
    satellites already there are kept as they are and in place, the
    counter and the output are untouched, and the satellites added (at
    most one per event) are alive, have an empty trail and sit where a
    left click was. *)
Theorem events_only_append (events : list (Event F)) :
  forall w : World F,
  exists news,
    fold_left handle_event events w
    = mkWorld (sats w ++ news) (energyCounter w) (cout w)
    /\ (List.length news <= List.length events)%nat
    /\ Forall (fun s => trail s = [] /\ alive s = true
                        /\ In (LeftClick (getPosition s)) events)
              news.
Proof.
  induction events as [|e events IH]; intros w.
  - exists []. simpl. rewrite app_nil_r. destruct w. now repeat split.
  - simpl fold_left. destruct (IH (handle_event w e)) as (news & Hw & Hn & Hall).
    assert (Hmore : Forall (fun s => trail s = [] /\ alive s = true
                          /\ In (LeftClick (getPosition s)) (e :: events))
                      news).
    { eapply Forall_impl; [|exact Hall].
      intros s (Ht & Ha & Hin). repeat split; trivial. now right. }
    destruct e as [worldPos|]; simpl handle_event in *.
    + destruct (spawn_cases worldPos w) as [E|(ns & E & Hp & Ht & Ha)];
        rewrite E in Hw |- *.
      * exists news. split; [exact Hw|]. split; [simpl; lia | exact Hmore].
      * exists (ns :: news). simpl in Hw. rewrite <- app_assoc in Hw.
        split; [exact Hw|]. split; [simpl; lia|].
        constructor; [|exact Hmore].
        repeat split; trivial. left. now rewrite Hp.
    + exists news. split; [exact Hw|]. split; [simpl; lia | exact Hmore].
Qed.

(** X6.  The path of a frame never fails and never exceeds 400 points:
    [predictedPath] always returns a sequence, of at most
    [predict_steps] points, all in the ghost colour, and empty when
    there is no satellite. *)
Theorem predictedPath_total (w : World F) :
  exists ghost,
    predictedPath w = Some ghost
    /\ (Z.of_nat (List.length ghost) <= predict_steps)%Z
    /\ Forall (fun pt => vcolor pt = ghost_color) ghost
    /\ (sats w = [] -> ghost = []).
Proof.
  unfold predictedPath. destruct (sats w) as [|s0 rest].
  - exists []. repeat split; [simpl; unfold predict_steps; lia | constructor].
  - unfold predictOrbit, predict_steps. cbn [Z.ltb Z.compare].
    destruct (predict_loop_path predict_dt (Z.to_nat 400)
                                (getPosition s0) (velocity s0))
      as (Hlen & Hmap & _).
    eexists. split; [reflexivity|]. split; [lia|]. split; [|discriminate].
    rewrite Hmap. apply Forall_forall. intros pt Hpt.
    apply in_map_iff in Hpt. now destruct Hpt as (k & <- & _).
Qed.

(** X7.  On a trail within its bound an append drops nothing or exactly
    16 points: the length goes up by one below [MAX_TRAIL], and from
    [MAX_TRAIL] it falls to [MAX_TRAIL - 15]; so a trail that has
    reached [MAX_TRAIL - 15] points keeps between [MAX_TRAIL - 15] and
    [MAX_TRAIL] of them. *)
Theorem trail_append_steady (t : list (Vertex F)) (p : Vector2f F) :
  (List.length t <= MAX_TRAIL)%nat ->
  List.length (trail_append t p)
  = (if (List.length t <? MAX_TRAIL)%nat then S (List.length t)
     else MAX_TRAIL - 15)%nat
  /\ ((MAX_TRAIL - 15 <= List.length t)%nat ->
      (MAX_TRAIL - 15 <= List.length (trail_append t p) <= MAX_TRAIL)%nat).
Proof.
  intros Hle. rewrite trail_append_skipn, length_skipn, length_app.
  pose proof MAX_TRAIL_block as Hb. simpl List.length.
  destruct (Nat.ltb_spec (List.length t) MAX_TRAIL) as [Hlt|Hge];
    destruct (Nat.ltb_spec MAX_TRAIL (List.length t + 1)); lia.
Qed.
End RunFacts.

(** ** Spawning, forces and energies over the reals *)

Section ExactExtras.
Import Exact Inputs.
Local Open Scope R_scope.

(** X8.  A left click, over the reals, with [r] the distance of the
    click to [EARTH_CENTER].  When [r > EARTH_RADIUS + 5] exactly one
    satellite is pushed at the back, alive, at the clicked position,
    with an empty trail, with speed [sqrt (G M / r) * ORBIT_SPEED_SCALE]
    and a velocity orthogonal to the radius; nothing else changes.
    When [r <= EARTH_RADIUS + 5] the world is left as it is. *)
Theorem click_spawn (worldPos : Vector2f R) (w : World R) :
  let r := length (vsub worldPos EARTH_CENTER) in
  (EARTH_RADIUS + 5 < r ->
     exists ns,
       spawn worldPos w
       = mkWorld (sats w ++ [ns]) (energyCounter w) (cout w)
       /\ getPosition ns = worldPos
       /\ trail ns = [] /\ alive ns = true
       /\ length (velocity ns)
          = sqrt (G * EARTH_MASS / r) * ORBIT_SPEED_SCALE
       /\ dot (velocity ns) (vsub worldPos EARTH_CENTER) = 0)
  /\ (r <= EARTH_RADIUS + 5 -> spawn worldPos w = w).
Proof.
  intros r. split; [|apply spawn_rejects].
  intros Hr. destruct (spawn_accepts worldPos w Hr)
    as (ns & Hw & Hp & Ht & Ha & Hv & Hd).
  exists ns. repeat (split; [assumption|]). split; [|exact Hd].
  rewrite Hv. fold r. rewrite Rmax_left; [reflexivity|].
  rewrite MIN_DIST_val. rewrite EARTH_RADIUS_val in Hr. lra.
Qed.


(** X10.  The energy is guarded against a vanishing distance: over the
    reals, for every position and velocity, [energy] lies between the
    kinetic energy minus [G M / MIN_DIST] (one million) and the kinetic
    energy. *)
Theorem energy_bounds (pos vel : Vector2f R) :
  let KE := 1 / 2 * (x vel * x vel + y vel * y vel) in
  KE - 1000000 <= energy pos vel <= KE
  /\ G * EARTH_MASS / MIN_DIST = 1000000.
Proof.
  intros KE. rewrite energy_from_origin. fold KE.
  set (m := Rmax (sqrt (x pos * x pos + y pos * y pos)) MIN_DIST).
  assert (Hm : 1 / 1000 <= m).
  { unfold m. rewrite <- MIN_DIST_val. apply Rmax_r. }
  rewrite G_val, EARTH_MASS_val, MIN_DIST_val.
  assert (Hq : 0 < 1 / 5 * 5000 / m <= 1000000).
  { set (q := 1 / 5 * 5000 / m).
    assert (Hqm : q * m = 1000) by (unfold q; field; lra).
    assert (Hq0 : 0 < q) by (unfold q; apply Rdiv_lt_0_compat; lra).
    split; [exact Hq0|].
    destruct (Rle_dec q 1000000) as [Hle|Hgt]; [exact Hle|].
    assert (1000000 * (1 / 1000) < q * m) by nra. lra. }
  split; [lra | field].
Qed.

Lemma vsub_vadd_center (p : Vector2f R) :
  vsub (vadd p EARTH_CENTER) EARTH_CENTER = p.
Proof.
  destruct p as [px py]. unfold vsub, vadd.
  cbn [x y fadd fsub ops]. f_equal; ring.
Qed.

Lemma predict_collides_centered (pos : Vector2f R) :
  predict_collides (vsub pos EARTH_CENTER)
  = (length (vsub EARTH_CENTER pos) <=? EARTH_RADIUS)%flt.
Proof.
  unfold predict_collides. f_equal. f_equal.
  unfold vneg, vsub. cbn [x y fsub fneg ops]. f_equal; ring.
Qed.

Lemma predict_state_centered (dt : R) :
  forall (k : nat) (pos vel : Vector2f R),
    predict_state k (vsub pos EARTH_CENTER) vel dt
    = (vsub (fst (live_state k pos vel dt)) EARTH_CENTER,
       snd (live_state k pos vel dt)).
Proof.
  induction k as [|k IH]; intros pos vel; [reflexivity|].
  cbn [predict_state live_state]. rewrite IH.
  destruct (live_state k pos vel dt) as [pk vk]. cbn [fst snd].
  rewrite live_step_centered.
  destruct (predict_step (vsub pk EARTH_CENTER) vk dt) as [p' v'].
  cbn [fst snd]. now rewrite vsub_vadd_center.
Qed.

(** X11.  Over the reals the predictor is the live integrator seen from
    [EARTH_CENTER]: started at [pos - EARTH_CENTER], its state after
    [k] steps is the state of the live integrator after [k] steps from
    [pos], moved by [- EARTH_CENTER]; its collision test there is the
    live test at [pos]; and the points it returns are the live
    positions after 1, 2, ... steps, moved by [- EARTH_CENTER]. *)
Theorem predictor_is_centered_integrator
    (pos vel : Vector2f R) (dt : R) (steps : Z) :
  (forall k,
      predict_state k (vsub pos EARTH_CENTER) vel dt
      = (vsub (fst (live_state k pos vel dt)) EARTH_CENTER,
         snd (live_state k pos vel dt)))
  /\ predict_collides (vsub pos EARTH_CENTER)
     = (length (vsub EARTH_CENTER pos) <=? EARTH_RADIUS)%flt
  /\ ((0 <= steps)%Z ->
      exists ghost,
        predictOrbit (vsub pos EARTH_CENTER) vel dt steps = Some ghost
        /\ ghost
           = map (fun k =>
                    vertex (vsub (fst (live_state (S k) pos vel dt))
                                 EARTH_CENTER)
                           ghost_color)
                 (seq 0 (List.length ghost))).
Proof.
  split; [intros k; apply predict_state_centered|].
  split; [apply predict_collides_centered|].
  intros Hsteps. unfold predictOrbit.
  destruct (Z.ltb_spec steps 0) as [Hneg|_]; [lia|].
  destruct (predict_loop_path dt (Z.to_nat steps)
                              (vsub pos EARTH_CENTER) vel)
    as (_ & Hmap & _).
  eexists. split; [reflexivity|].
  rewrite Hmap at 1. apply map_ext. intros k.
  unfold predict_point. now rewrite predict_state_centered.
Qed.

Lemma clamp_dt_idempotent_exact (dt_raw : R) :
  clamp_dt (clamp_dt dt_raw) = clamp_dt dt_raw.
Proof.
  rewrite !clamp_dt_val.
  set (d := if Rleb dt_raw 0 then 1 / 60 else dt_raw).
  assert (Hd : 0 < d).
  { unfold d. destruct (Rleb dt_raw 0) eqn:E; [lra|].
    now apply Rleb_false in E. }
  assert (Hm : 0 < Rmin d (1 / 20) <= 1 / 20).
  { unfold Rmin. destruct (Rle_dec d (1 / 20)); lra. }
  assert (E : Rleb (Rmin d (1 / 20)) 0 = false) by (apply Rleb_false; lra).
  rewrite E. apply Rmin_left. lra.
Qed.

(** X13.  The force of the live step, over the reals, for a satellite
    at distance [r > MIN_DIST] from [EARTH_CENTER]: with [dir] the unit
    vector towards [EARTH_CENTER] and [tangent] its quarter turn, the
    velocity gains [G M / (r^2 + MIN_DIST) * dt] along [dir] and
    [J2_STRENGTH * r * dt] along [tangent], and the position then moves
    by the NEW velocity times [dt]. *)
Theorem live_step_components (pos vel : Vector2f R) (dt : R) :
  let r := length (vsub EARTH_CENTER pos) in
  let dir := vdiv (vsub EARTH_CENTER pos) r in
  let tangent := vec (- y dir) (x dir) in
  let pos' := fst (live_step pos vel dt) in
  let vel' := snd (live_step pos vel dt) in
  MIN_DIST < r ->
  length dir = 1
  /\ dot dir tangent = 0
  /\ dot (vsub vel' vel) dir = G * EARTH_MASS / (r * r + MIN_DIST) * dt
  /\ dot (vsub vel' vel) tangent = J2_STRENGTH * r * dt
  /\ pos' = vadd pos (vmul vel' dt).
Proof.
  intros r dir tangent pos' vel' Hr.
  pose proof (normalize_far _ Hr) as Hn. fold r in Hn. fold dir in Hn.
  pose proof (normalize_far_length _ Hr) as Hu. rewrite Hn in Hu.
  pose proof (length_sqr dir) as Hsq. rewrite Hu in Hsq.
  assert (Hstep : live_step pos vel dt
                  = (vadd pos (vmul vel' dt), vel')).
  { unfold vel', live_step, live_integrate. cbv zeta. reflexivity. }
  assert (Hvel : vel'
                 = vadd vel
                     (vmul (vadd (vmul dir
                                    (G * EARTH_MASS / (r * r + MIN_DIST)))
                                 (vmul (vmul tangent J2_STRENGTH) r))
                           dt)).
  { unfold vel', live_step, live_integrate. cbv zeta. cbn [snd].
    fold r. rewrite Hn. reflexivity. }
  split; [exact Hu|].
  split; [unfold dot, tangent; cbn [x y fadd fmul fneg ops]; ring|].
  split; [|split].
  - rewrite Hvel. unfold dot, vsub, vadd, vmul, tangent.
    cbn [x y fadd fsub fmul fdiv fneg ops].
    set (a := G * EARTH_MASS / (r * r + MIN_DIST)).
    transitivity (a * dt * (x dir * x dir + y dir * y dir)); [ring|].
    rewrite <- Hsq. ring.
  - rewrite Hvel. unfold dot, vsub, vadd, vmul, tangent.
    cbn [x y fadd fsub fmul fdiv fneg ops].
    set (a := G * EARTH_MASS / (r * r + MIN_DIST)).
    transitivity (J2_STRENGTH * r * dt
                  * (x dir * x dir + y dir * y dir)); [ring|].
    rewrite <- Hsq. ring.
  - unfold pos'. now rewrite Hstep.
Qed.
End ExactExtras.

(** ** The view, and the clamp in both readings *)

Section ViewFacts.
Import Exact Binary32 Inputs.

Lemma fclamp_exact (v lo hi : R) :
  (lo <= hi)%R -> (lo <= fclamp v lo hi <= hi)%R
  /\ ((lo <= v <= hi)%R -> fclamp v lo hi = v).
Proof.
  intros Hlh. unfold fclamp. cbn [fltb Exact.ops].
  destruct (Rltb v lo) eqn:E1;
    [apply Rltb_true in E1 | apply Rltb_false in E1].
  - split; lra.
  - destruct (Rltb hi v) eqn:E2;
      [apply Rltb_true in E2 | apply Rltb_false in E2]; split; lra.
Qed.

Lemma fclamp_binary32 (v lo hi : float) :
  lo <> S754_nan -> hi <> S754_nan ->
  (lo <=? lo)%flt = true -> (hi <=? hi)%flt = true ->
  (lo <=? hi)%flt = true ->
  fclamp v lo hi <> S754_nan ->
  (lo <=? fclamp v lo hi)%flt = true /\ (fclamp v lo hi <=? hi)%flt = true.
Proof.
  intros Hlo Hhi Hll Hhh Hlh. unfold fclamp.
  destruct (v <? lo)%flt eqn:E1; [now split|].
  destruct (hi <? v)%flt eqn:E2; [now split|].
  intros Hv. split.
  - now apply fltb_false_fleb.
  - now apply fltb_false_fleb.
Qed.

(** X14.  After a wheel event the view size is within its limits,
    whatever it was before: width in [50, 5000] and height in
    [37.5, 3750]; the centre is not moved.  Over the reals always; in
    binary32 for each component that is a number. *)
Theorem wheel_size_bounds :
  (forall (delta : R) (v : View R),
      (50 <= x (size (wheel delta v)) <= 5000)%R
      /\ (75 / 2 <= y (size (wheel delta v)) <= 3750)%R
      /\ center (wheel delta v) = center v)
  /\ (forall (delta : float) (v : View float),
      (x (size (wheel delta v)) <> S754_nan ->
         (of_Z 50 <=? x (size (wheel delta v)))%flt = true
         /\ (x (size (wheel delta v)) <=? of_Z 5000)%flt = true)
      /\ (y (size (wheel delta v)) <> S754_nan ->
         (dec 375 1 <=? y (size (wheel delta v)))%flt = true
         /\ (y (size (wheel delta v)) <=? of_Z 3750)%flt = true)
      /\ center (wheel delta v) = center v).
Proof.
  split.
  - intros delta v. unfold wheel. cbv zeta. cbn [size center x y].
    rewrite !fdec_int. cbn [fmul fdec Exact.ops]. unfold Exact.dec.
    simpl pow.
    split; [apply fclamp_exact; lra|].
    split; [|now destruct (_ <? _)%flt].
    replace (50 * (75 / (10 * (10 * 1))))%R with (75 / 2)%R by lra.
    replace (5000 * (75 / (10 * (10 * 1))))%R with 3750%R by lra.
    apply fclamp_exact. lra.
  - intros delta v. unfold wheel. cbv zeta. cbn [size center x y].
    split; [|split; [|now destruct (_ <? _)%flt]].
    + apply fclamp_binary32; try discriminate; vm_compute; reflexivity.
    + change (dec 375 1) with (fdec 50 0 * fdec 75 2 : float)%flt.
      change (of_Z 3750) with (fdec 5000 0 * fdec 75 2 : float)%flt.
      apply fclamp_binary32; try discriminate; vm_compute; reflexivity.
Qed.

Lemma wheel_exact (delta : R) (v : View R) :
  exists f : R,
    (f = 9 / 10 \/ f = 11 / 10)%R
    /\ wheel delta v
       = mkView (center v)
                (vec (fclamp (x (size v) * f)%R 50%R 5000%R)
                     (fclamp (y (size v) * f)%R (75 / 2)%R 3750%R)).
Proof.
  unfold wheel. cbv zeta. rewrite !fdec_int.
  cbn [fmul fdec Exact.ops]. unfold Exact.dec. simpl pow.
  replace (50 * (75 / (10 * (10 * 1))))%R with (75 / 2)%R by lra.
  replace (5000 * (75 / (10 * (10 * 1))))%R with 3750%R by lra.
  destruct (fltb _ delta); [exists (9 / 10)%R | exists (11 / 10)%R];
    (split; [lra|]); unfold view_zoom, vmul;
    cbn [size center x y fmul Exact.ops]; repeat f_equal; lra.
Qed.

Lemma fclamp_scaled (v lo hi k : R) :
  (0 < k)%R -> (lo <= hi)%R ->
  fclamp (k * v)%R (k * lo)%R (k * hi)%R = (k * fclamp v lo hi)%R.
Proof.
  intros Hk Hlh. unfold fclamp. cbn [fltb Exact.ops].
  destruct (Rltb v lo) eqn:E1;
    [apply Rltb_true in E1 | apply Rltb_false in E1].
  - assert (E : Rltb (k * v) (k * lo) = true) by (apply Rltb_true; nra).
    now rewrite E.
  - assert (E : Rltb (k * v) (k * lo) = false) by (apply Rltb_false; nra).
    rewrite E.
    destruct (Rltb hi v) eqn:E2;
      [apply Rltb_true in E2 | apply Rltb_false in E2].
    + assert (E' : Rltb (k * hi) (k * v) = true) by (apply Rltb_true; nra).
      now rewrite E'.
    + assert (E' : Rltb (k * hi) (k * v) = false)
        by (apply Rltb_false; nra).
      now rewrite E'.
Qed.

Lemma pan_exact (keyA keyD keyW keyS : bool) (v : View R) :
  let cam := (8 * (x (size v) / 1200))%R in
  size (pan keyA keyD keyW keyS v) = size v
  /\ x (center (pan keyA keyD keyW keyS v))
     = (x (center v)
        + cam * ((if keyD then 1 else 0) - (if keyA then 1 else 0)))%R
  /\ y (center (pan keyA keyD keyW keyS v))
     = (y (center v)
        + cam * ((if keyS then 1 else 0) - (if keyW then 1 else 0)))%R.
Proof.
  intros cam. unfold pan. cbv zeta. rewrite !fdec_int.
  cbn [fmul fdiv fneg Exact.ops]. fold cam.
  destruct keyA, keyD, keyW, keyS; unfold view_move, vadd;
    cbn [size center x y fadd Exact.ops]; repeat split; ring.
Qed.

(** X15.  Zooming and panning keep the shape of the view, over the
    reals: if the view is 4 : 3 with a width in [50, 5000], it still is
    after the wheel events and the pan of a frame, however many wheel
    events there are; the view the program starts with is such a
    view. *)
Theorem view_frame_keeps_aspect
    (wheels : list R) (keyA keyD keyW keyS : bool) (v : View R) :
  (y (size v) = 3 / 4 * x (size v) /\ 50 <= x (size v) <= 5000)%R ->
  let v' := view_frame wheels keyA keyD keyW keyS v in
  (y (size v') = 3 / 4 * x (size v') /\ 50 <= x (size v') <= 5000)%R
  /\ (y (size initial_view) = 3 / 4 * x (size initial_view)
      /\ 50 <= x (size initial_view) <= 5000)%R.
Proof.
  intros Hv v'. split.
  - unfold v', view_frame.
    destruct (pan_exact keyA keyD keyW keyS
                (fold_left (fun v d => wheel d v) wheels v)) as [-> _].
    clear v'. revert v Hv.
    induction wheels as [|d wheels IH]; intros v Hv; [exact Hv|].
    simpl. apply IH.
    destruct (wheel_exact d v) as (f & Hf & ->). cbn [size x y].
    destruct Hv as [Hy Hx]. rewrite Hy.
    replace (3 / 4 * x (size v) * f)%R
      with (3 / 4 * (x (size v) * f))%R by ring.
    replace (75 / 2)%R with (3 / 4 * 50)%R by lra.
    replace 3750%R with (3 / 4 * 5000)%R by lra.
    rewrite fclamp_scaled by lra.
    split; [reflexivity|]. apply fclamp_exact. lra.
  - unfold initial_view. cbn [size x y]. rewrite !fdec_int. lra.
Qed.

(** X16.  The pan, over the reals: it never changes the size of the
    view; each pressed key moves the centre by [size.x / 150] along its
    axis, so opposite keys pressed together cancel; and for a width in
    [50, 5000] that step is between 1/3 and 100/3. *)
Theorem pan_moves_center (keyA keyD keyW keyS : bool) (v : View R) :
  let cam := (x (size v) / 150)%R in
  size (pan keyA keyD keyW keyS v) = size v
  /\ x (center (pan keyA keyD keyW keyS v))
     = (x (center v)
        + cam * ((if keyD then 1 else 0) - (if keyA then 1 else 0)))%R
  /\ y (center (pan keyA keyD keyW keyS v))
     = (y (center v)
        + cam * ((if keyS then 1 else 0) - (if keyW then 1 else 0)))%R
  /\ center (pan true true true true v) = center v
  /\ ((50 <= x (size v) <= 5000)%R -> (1 / 3 <= cam <= 100 / 3)%R).
Proof.
  intros cam.
  destruct (pan_exact keyA keyD keyW keyS v) as (Hs & Hx & Hy).
  assert (Hcam : (8 * (x (size v) / 1200))%R = cam) by (unfold cam; field).
  rewrite Hcam in Hx, Hy.
  split; [exact Hs|]. split; [exact Hx|]. split; [exact Hy|]. split.
  - destruct (pan_exact true true true true v) as (_ & Hx' & Hy').
    destruct (center (pan true true true true v)) as [cx cy].
    destruct (center v) as [vx vy]. cbn [x y] in Hx', Hy'.
    f_equal; lra.
  - intros Hb. unfold cam. lra.
Qed.

(** X12.  The time-step clamp is idempotent: clamping a clamped step
    changes nothing; over the reals, and in binary32 for every clock
    reading that is a number. *)
Theorem clamp_dt_idempotent :
  (forall dt_raw : R, clamp_dt (clamp_dt dt_raw) = clamp_dt dt_raw)
  /\ (forall dt_raw : float,
        dt_raw <> S754_nan ->
        clamp_dt (clamp_dt dt_raw) = clamp_dt dt_raw).
Proof.
  split; [exact clamp_dt_idempotent_exact|].
  intros dt_raw Hnan.
  destruct (clamp_dt_binary32 Hnan) as (Hpos & Hmax & _).
  assert (Hnum : clamp_dt dt_raw <> S754_nan).
  { intros E. rewrite E in Hpos. discriminate Hpos. }
  destruct (clamp_dt_binary32 Hnum) as (_ & _ & _ & _ & Hkeep).
  now apply Hkeep.
Qed.
End ViewFacts.

(** ** The further properties at concrete inputs *)

Section ExtraWitnesses.
Import Exact Binary32 Inputs.

(** [run_trails_bounded] and [run_trails_end_at_position] on one frame
    with a click, from a world holding the falling satellite. *)
Lemma run_trails_bounded_witness :
  Forall trail_bounded
         (sats (run [(dec 5 2, [LeftClick (v32 900 450)])]
                    (mkWorld [falling] 0 []))).
Proof.
  apply (proj1 (run_trails_bounded
                  [(dec 5 2, [LeftClick (v32 900 450)])])).
  simpl. constructor; [unfold trail_bounded; simpl; lia | constructor].
Defined.

Lemma run_trails_end_at_position_witness :
  Forall trail_at_position
         (sats (run [(dec 5 2, [LeftClick (v32 900 450)])]
                    (mkWorld [falling] 0 []))).
Proof.
  apply (proj1 (run_trails_end_at_position
                  [(dec 5 2, [LeftClick (v32 900 450)])])).
  simpl. constructor; [left; reflexivity | constructor].
Defined.

(** [physics_update_energy_samples] when the counter stands at 199: the
    one integration of the pass brings it to 200 and prints one
    energy. *)
Lemma physics_update_energy_samples_witness :
  energyCounter (physics_update (dec 5 2) (mkWorld [falling; sunk] 199 []))
  = 200%Z
  /\ exists printed,
       cout (physics_update (dec 5 2) (mkWorld [falling; sunk] 199 []))
       = printed
       /\ Z.of_nat (List.length printed) = 1%Z.
Proof.
  destruct (physics_update_energy_samples
              (dec 5 2) (mkWorld [falling; sunk] 199 []))
    as (printed & Hout & _ & Hcnt).
  destruct Hcnt as [Hc Hlen];
    [simpl; lia | vm_compute; discriminate |].
  split; [exact Hc|]. exists printed. split; [exact Hout | exact Hlen].
Defined.

(** [predictedPath_total] on the world without satellites. *)
Lemma predictedPath_total_witness :
  predictedPath (mkWorld (F := float) [] 0 []) = Some [].
Proof.
  destruct (predictedPath_total (mkWorld (F := float) [] 0 []))
    as (ghost & Hp & _ & _ & Hempty).
  rewrite Hp. f_equal. apply Hempty. reflexivity.
Defined.

(** [trail_append_steady] on a full trail. *)
Lemma trail_append_steady_witness :
  List.length (trail_append (repeat (vertex (v32 1 2) Color_Green) 3000)
                            (v32 3 4))
  = (if (List.length (repeat (vertex (v32 1 2) Color_Green) 3000)
         <? MAX_TRAIL)%nat
     then S (List.length (repeat (vertex (v32 1 2) Color_Green) 3000))
     else MAX_TRAIL - 15)%nat.
Proof.
  apply trail_append_steady. rewrite repeat_length. unfold MAX_TRAIL. lia.
Defined.

Lemma click_900_radius :
  length (vsub (vR 900 450) EARTH_CENTER) = 300%R.
Proof.
  rewrite EARTH_CENTER_val. unfold vsub, vR. cbn [x y fsub Exact.ops].
  apply length_is; lra.
Defined.

(** [click_spawn] and [click_spawn_escapes] for a click at (900, 450),
    300 from [EARTH_CENTER]; [click_spawn] also for a click at
    [EARTH_CENTER] itself. *)
Lemma click_spawn_witness :
  (exists ns,
      spawn (vR 900 450) initial = mkWorld (sats initial ++ [ns]) 0 []
      /\ getPosition ns = vR 900 450
      /\ trail ns = [] /\ alive ns = true
      /\ length (velocity ns)
         = (sqrt (G * EARTH_MASS
                  / length (vsub (vR 900 450) EARTH_CENTER))
            * ORBIT_SPEED_SCALE)%R
      /\ dot (velocity ns) (vsub (vR 900 450) EARTH_CENTER) = 0%R)
  /\ spawn (vR 600 450) initial = initial.
Proof.
  split.
  - apply (proj1 (click_spawn (vR 900 450) initial)).
    rewrite click_900_radius, EARTH_RADIUS_val. lra.
  - apply (proj2 (click_spawn (vR 600 450) initial)).
    rewrite EARTH_CENTER_val, EARTH_RADIUS_val.
    unfold vsub, vR. cbn [x y fsub Exact.ops].
    apply Rle_trans with 0%R; [apply length_le; lra | lra].
Defined.


(** [predictor_is_centered_integrator] for 400 steps. *)
Lemma predictor_is_centered_integrator_witness :
  exists ghost,
    predictOrbit (vsub (vR 900 450) EARTH_CENTER) (vR 0 4) (1 / 50)%R 400
    = Some ghost
    /\ ghost
       = map (fun k =>
                vertex (vsub (fst (live_state (S k) (vR 900 450) (vR 0 4)
                                              (1 / 50)%R))
                             EARTH_CENTER)
                       ghost_color)
             (seq 0 (List.length ghost)).
Proof.
  apply (proj2 (proj2 (predictor_is_centered_integrator
                         (vR 900 450) (vR 0 4) (1 / 50)%R 400))).
  lia.
Defined.

(** [clamp_dt_idempotent] at the reading 7 in binary32. *)
Lemma clamp_dt_idempotent_witness :
  clamp_dt (clamp_dt (of_Z 7)) = clamp_dt (of_Z 7).
Proof.
  apply (proj2 clamp_dt_idempotent). discriminate.
Defined.

(** [live_step_components] at (600, 0), 450 from [EARTH_CENTER]. *)
Lemma live_step_components_witness :
  let r := length (vsub EARTH_CENTER (vR 600 0)) in
  let dir := vdiv (vsub EARTH_CENTER (vR 600 0)) r in
  let tangent := vec (- y dir)%R (x dir) in
  let vel' := snd (live_step (vR 600 0) (vR 0 0) (1 / 50)%R) in
  (MIN_DIST < r)%R
  /\ dot (vsub vel' (vR 0 0)) dir
     = (G * EARTH_MASS / (r * r + MIN_DIST) * (1 / 50))%R
  /\ dot (vsub vel' (vR 0 0)) tangent = (J2_STRENGTH * r * (1 / 50))%R.
Proof.
  intros r dir tangent vel'.
  assert (Hr : (MIN_DIST < r)%R).
  { unfold r. rewrite EARTH_CENTER_val, MIN_DIST_val.
    unfold vsub, vR. cbn [x y fsub Exact.ops]. apply length_lt; lra. }
  split; [exact Hr|].
  destruct (@live_step_components (vR 600 0) (vR 0 0) (1 / 50)%R Hr)
    as (_ & _ & Hd & Ht & _).
  split; [exact Hd | exact Ht].
Defined.

(** [wheel_size_bounds] for a scroll up on the starting view. *)
Lemma wheel_size_bounds_witness :
  (of_Z 50 <=? x (size (wheel (of_Z 1) initial_view)))%flt = true
  /\ (x (size (wheel (of_Z 1) initial_view)) <=? of_Z 5000)%flt = true.
Proof.
  apply (proj1 (proj2 wheel_size_bounds (of_Z 1) initial_view)).
  vm_compute. discriminate.
Defined.

(** [view_frame_keeps_aspect] and [pan_moves_center] on the starting
    view. *)
Lemma view_frame_keeps_aspect_witness :
  let v' := view_frame [1%R; (-1)%R] true false false true initial_view in
  (y (size v') = 3 / 4 * x (size v') /\ 50 <= x (size v') <= 5000)%R.
Proof.
  apply (@view_frame_keeps_aspect [1%R; (-1)%R] true false false true
                                  initial_view).
  unfold initial_view. cbn [size x y]. rewrite !fdec_int. lra.
Defined.

Lemma pan_moves_center_witness :
  (1 / 3 <= x (size (initial_view (F := R))) / 150 <= 100 / 3)%R.
Proof.
  apply (proj2 (proj2 (proj2 (proj2
           (pan_moves_center false false false false initial_view))))).
  unfold initial_view. cbn [size x y]. rewrite !fdec_int. lra.
Defined.
End ExtraWitnesses.

(** ** The energy output over whole runs *)

Section RunOutput.
Context {F : Type} {ops : Flt F}.

Lemma events_counter (events : list (Event F)) :
  forall w : World F,
    energyCounter (fold_left handle_event events w) = energyCounter w
    /\ cout (fold_left handle_event events w) = cout w.
Proof.
  induction events as [|e events IH]; intros w; [now split|].
  simpl. destruct (IH (handle_event w e)) as [-> ->].
  destruct e as [worldPos|]; [|now split]. simpl.
  destruct (spawn_cases worldPos w) as [->|(ns & -> & _)]; now split.
Qed.

Lemma frame_counter (dt_raw : F) (events : list (Event F)) (w : World F) :
  let w' := fst (frame dt_raw events w) in
  let c := energyCounter w in
  let k := Z.of_nat (List.length
                       (filter integrated
                               (sats (fold_left handle_event events w)))) in
  exists printed,
    cout w' = cout w ++ printed
    /\ ((0 <= c)%Z -> (c + k <= INT_MAX)%Z ->
        energyCounter w' = (c + k)%Z
        /\ Z.of_nat (List.length printed) = ((c + k) / 200 - c / 200)%Z).
Proof.
  unfold frame. cbv zeta. cbn [fst].
  destruct (events_counter events w) as [Hc Ho].
  set (w1 := fold_left handle_event events w) in *.
  pose proof (@physics_loop_counter F ops (clamp_dt dt_raw)
                (List.length (sats w1)) w1 (Nat.le_refl _)) as H.
  cbv zeta in H. rewrite firstn_all in H.
  destruct H as (printed & Hout & _ & Hcnt).
  fold (physics_update (clamp_dt dt_raw) w1) in Hout, Hcnt.
  rewrite Hc in Hcnt. rewrite Hout, Ho.
  exists printed. split; [reflexivity | exact Hcnt].
Qed.

Lemma run_integrations_nonneg (inputs : list (F * list (Event F))) :
  forall w : World F, (0 <= run_integrations inputs w)%Z.
Proof.
  induction inputs as [|i inputs IH]; intros w; cbn [run_integrations];
    [lia|].
  specialize (IH (fst (frame (fst i) (snd i) w))). lia.
Qed.

(** X17.  The energy output keeps pace with the counter over whole
    runs.  A run only appends to the output.  As long as the counter
    does not overflow (it starts not negative and the integrations of
    the run keep it within [INT_MAX]), the run adds to the counter the
    number of integrations it performs, and if the output held one line
    per 200 counts before the run it does after it; so from the
    starting world, while fewer than 2^31 integrations have been made,
    the counter is the number of integrations and the number of
    energies printed is the counter divided by 200. *)
Theorem run_energy_output (inputs : list (F * list (Event F))) :
  (forall w : World F,
      (exists printed, cout (run inputs w) = cout w ++ printed)
      /\ ((0 <= energyCounter w)%Z ->
          (energyCounter w + run_integrations inputs w <= INT_MAX)%Z ->
          energyCounter (run inputs w)
          = (energyCounter w + run_integrations inputs w)%Z
          /\ (Z.of_nat (List.length (cout w)) = (energyCounter w / 200)%Z ->
              Z.of_nat (List.length (cout (run inputs w)))
              = (energyCounter (run inputs w) / 200)%Z)))
  /\ ((run_integrations inputs initial <= INT_MAX)%Z ->
      energyCounter (run inputs initial) = run_integrations inputs initial
      /\ Z.of_nat (List.length (cout (run inputs initial)))
         = (energyCounter (run inputs initial) / 200)%Z).
Proof.
  assert (H : forall w : World F,
      (exists printed, cout (run inputs w) = cout w ++ printed)
      /\ ((0 <= energyCounter w)%Z ->
          (energyCounter w + run_integrations inputs w <= INT_MAX)%Z ->
          energyCounter (run inputs w)
          = (energyCounter w + run_integrations inputs w)%Z
          /\ (Z.of_nat (List.length (cout w)) = (energyCounter w / 200)%Z ->
              Z.of_nat (List.length (cout (run inputs w)))
              = (energyCounter (run inputs w) / 200)%Z))).
  { unfold run.
    induction inputs as [|[dt_raw events] inputs IH]; intros w.
    - simpl. split; [exists []; now rewrite app_nil_r|].
      intros _ _. rewrite Z.add_0_r. split; trivial.
    - cbn [fold_left run_integrations fst snd].
      destruct (frame_counter dt_raw events w) as (printed & Hout & Hcnt).
      set (k := Z.of_nat
                  (List.length
                     (filter integrated
                             (sats (fold_left handle_event events w)))))
        in *.
      set (w1 := fst (frame dt_raw events w)) in *.
      pose proof (run_integrations_nonneg inputs w1) as Hnn.
      destruct (IH w1) as ((printed' & Hout') & Hinv).
      split.
      + exists (printed ++ printed'). now rewrite Hout', Hout, app_assoc.
      + intros Hc Hmax.
        assert (Hk : (0 <= k)%Z) by (unfold k; lia).
        destruct Hcnt as [Hc1 Hn1]; [exact Hc | lia |].
        destruct Hinv as [Hc2 Hn2]; [lia | lia |].
        split; [lia|]. intros Hn. apply Hn2.
        rewrite Hout, length_app, Nat2Z.inj_add, Hn1, Hn, Hc1. lia. }
  split; [exact H|]. intros Hmax.
  destruct (H initial) as (_ & Hinit).
  destruct Hinit as [Hc Hn]; [simpl; lia | simpl; lia |].
  split; [rewrite Hc; simpl; lia | now apply Hn].
Qed.
End RunOutput.

Section RunOutputWitness.
Import Binary32 Inputs.

(** [run_energy_output] on one frame from a counter at 199, and from
    the starting world. *)
Lemma run_energy_output_witness :
  (energyCounter (run [(dec 5 2, [])] (mkWorld [falling] 199 [])) = 200%Z
   /\ Z.of_nat (List.length
                  (cout (run [(dec 5 2, [])] (mkWorld [falling] 199 []))))
      = (energyCounter (run [(dec 5 2, [])] (mkWorld [falling] 199 []))
         / 200)%Z)
  /\ energyCounter (run [(dec 5 2, [])] (initial (F := float))) = 1%Z.
Proof.
  destruct (run_energy_output [(dec 5 2, [])]) as [Hrun Hinit].
  split.
  - destruct (proj2 (Hrun (mkWorld [falling] 199 []))) as [Hc Hn];
      [simpl; lia | vm_compute; discriminate |].
    split; [exact Hc | apply Hn; reflexivity].
  - destruct Hinit as [Hc _]; [vm_compute; discriminate | exact Hc].
Defined.
End RunOutputWitness.
